(** * Soft Actor-Critic training loop of robojax: schedule, masks, update cycle

    Shallow embedding of [robojax/agents/sac/config.py] and
    [robojax/agents/sac/sac.py].  The Python objects the loop works on are
    kept as they are in the source:

    - a configuration is a Python object, i.e. a finite map from attribute
      names to values; reading an attribute that is absent raises
      [AttributeError];
    - integers are unbounded ([Z]); a float carries its exact rational
      value ([Q]); the per-environment numpy vectors are lists;
    - exceptions are the [Raise] branch of an error monad;
    - [jax.random] keys are positions in the tree of splits. *)

From Stdlib Require Import ZArith QArith Qround List Bool Lia String.
From stdpp Require Import base gmap strings list.

Local Open Scope string_scope.
Local Open Scope Z_scope.

(** ** Exceptions and the error monad *)

Inductive exn : Type :=
| TypeError
| AttributeError (name : string)
| ZeroDivisionError
| ValueError
| IndexError
| UnboundLocalError (name : string).

Inductive result (T : Type) : Type :=
| Ok (v : T)
| Raise (e : exn).
Arguments Ok {T} v.
Arguments Raise {T} e.

#[global] Instance result_ret : MRet result := λ T v, Ok v.
#[global] Instance result_bind : MBind result :=
  λ T U f m, match m with Ok v => f v | Raise e => Raise e end.

(** ** Python values held by a configuration *)

Inductive PyVal : Type :=
| VInt (z : Z)
| VFloat (q : Q)
| VBool (b : bool)
| VNone.

(** A number as Python arithmetic sees it: [bool] is a subclass of [int]. *)
Inductive num : Type :=
| NInt (z : Z)
| NFloat (q : Q).

Definition as_num (v : PyVal) : result num :=
  match v with
  | VInt z => Ok (NInt z)
  | VBool b => Ok (NInt (Z.b2z b))
  | VFloat q => Ok (NFloat q)
  | VNone => Raise TypeError
  end.

(** [a < v] for an integer [a]. *)
Definition py_lt (a : Z) (v : PyVal) : result bool :=
  n ← as_num v;
  match n with
  | NInt z => Ok (a <? z)
  | NFloat q => Ok (negb (Qle_bool q (inject_Z a)))
  end.

(** [a >= v] for an integer [a]. *)
Definition py_ge (a : Z) (v : PyVal) : result bool :=
  n ← as_num v;
  match n with
  | NInt z => Ok (z <=? a)
  | NFloat q => Ok (Qle_bool q (inject_Z a))
  end.

(** [v > 0]. *)
Definition py_pos (v : PyVal) : result bool :=
  n ← as_num v;
  match n with
  | NInt z => Ok (0 <? z)
  | NFloat q => Ok (negb (Qle_bool q 0))
  end.

(** [a % v == 0] for an integer [a]: Python's modulo takes the sign of the
    divisor, as [Z.modulo] does, and raises on a zero divisor. *)
Definition py_mod_is_zero (a : Z) (v : PyVal) : result bool :=
  n ← as_num v;
  match n with
  | NInt z => if z =? 0 then Raise ZeroDivisionError else Ok (a mod z =? 0)
  | NFloat q =>
      if Qeq_bool q 0 then Raise ZeroDivisionError
      else let r := (inject_Z a / q)%Q in Ok (Qeq_bool (inject_Z (Qfloor r)) r)
  end.

(** [x == v] for an element [x] of a numpy vector of counts: numpy compares
    with [None] elementwise and answers [False]. *)
Definition np_eq_scalar (x : Z) (v : PyVal) : bool :=
  match v with
  | VInt z => x =? z
  | VBool b => x =? Z.b2z b
  | VFloat q => Qeq_bool (inject_Z x) q
  | VNone => false
  end.

(** Truth value of [if v:]. *)
Definition py_truthy (v : PyVal) : bool :=
  match v with
  | VInt z => negb (z =? 0)
  | VBool b => b
  | VFloat q => negb (Qeq_bool q 0)
  | VNone => false
  end.

(** [float(v)]. *)
Definition py_float (v : PyVal) : result Q :=
  n ← as_num v;
  match n with
  | NInt z => Ok (inject_Z z)
  | NFloat q => Ok q
  end.

(** The number a value stands for, if it is one. *)
Definition py_Q (v : PyVal) : option Q :=
  match v with
  | VInt z => Some (inject_Z z)
  | VBool b => Some (inject_Z (Z.b2z b))
  | VFloat q => Some q
  | VNone => None
  end.

(** ** config.py: [SACConfig] *)

(** A Python object: its instance dictionary. *)
Abbreviation PyObj := (gmap string PyVal).

Definition getattr (o : PyObj) (name : string) : result PyVal :=
  match o !! name with
  | Some v => Ok v
  | None => Raise (AttributeError name)
  end.

(** Fields of the dataclass without a default. *)
Definition SACConfig_required : list string :=
  ["num_seed_steps"; "replay_buffer_capacity"; "batch_size"].

(** Fields of the dataclass with their defaults. *)
Definition SACConfig_defaults : list (string * PyVal) :=
  [ ("num_envs", VInt 1);
    ("steps_per_env", VInt 1);
    ("grad_updates_per_step", VInt 1);
    ("tau", VFloat (5 # 1000));
    ("discount", VFloat (99 # 100));
    ("backup_entropy", VBool true);
    ("target_entropy", VNone);
    ("learnable_temp", VBool true);
    ("initial_temperature", VFloat 1);
    ("actor_update_freq", VInt 1);
    ("target_update_freq", VInt 1);
    ("eval_freq", VInt 5000);
    ("eval_steps", VInt 1000);
    ("num_eval_envs", VInt 4);
    ("log_freq", VInt 1000);
    ("save_freq", VInt 100000) ].

Definition SACConfig_fields : list string :=
  SACConfig_required ++ map fst SACConfig_defaults.

(** The dataclass constructor applied to a keyword dictionary: the generated
    [__init__] accepts exactly the declared fields, needs the three without
    default, and checks no type. *)
Definition SACConfig (kwargs : PyObj) : result PyObj :=
  if decide (dom kwargs ⊆ list_to_set SACConfig_fields) then
    if decide (list_to_set SACConfig_required ⊆ dom kwargs) then
      Ok (kwargs ∪ list_to_map SACConfig_defaults)
    else Raise TypeError
  else Raise TypeError.

(** ** Random keys

    [jax.random.split(key, n)] returns [n] new keys.  A key is modelled by
    its position in the tree of splits: the [i]-th child of [k] is
    [k ++ [i]]. *)

Definition PRNGKey : Type := list nat.

Definition child (k : PRNGKey) (i : nat) : PRNGKey := (k ++ [i])%list.

Definition split (k : PRNGKey) (n : nat) : list PRNGKey :=
  map (child k) (seq 0 n).

Definition split2 (k : PRNGKey) : PRNGKey * PRNGKey :=
  (child k 0, child k 1).

Definition split3 (k : PRNGKey) : PRNGKey * PRNGKey * PRNGKey :=
  (child k 0, child k 1, child k 2).

(** ** numpy vectors of one entry per environment *)

(** Broadcasting of two one-dimensional arrays: equal lengths, or one of the
    two has length one; anything else is a [ValueError]. *)
Definition broadcast {X Y : Type} (xs : list X) (ys : list Y) : result (list (X * Y)) :=
  if (length xs =? length ys)%nat then Ok (zip xs ys)
  else match xs, ys with
       | [x], _ => Ok (map (pair x) ys)
       | _, [y] => Ok (map (λ x, (x, y)) xs)
       | _, _ => Raise ValueError
       end.

(** [xs += ys]: the result keeps the shape of [xs]. *)
Definition np_iadd {X Y : Type} (f : X → Y → X) (xs : list X) (ys : list Y) : result (list X) :=
  if (length xs =? length ys)%nat then Ok (zip_with f xs ys)
  else match ys with
       | [y] => Ok (map (λ x, f x y) xs)
       | _ => Raise ValueError
       end.

(** [xs[m]] for a boolean mask [m]: the mask must have the length of [xs]. *)
Definition np_select {X : Type} (xs : list X) (m : list bool) : result (list X) :=
  if (length xs =? length m)%nat
  then Ok (map fst (filter (λ p, snd p = true) (zip xs m)))
  else Raise IndexError.

(** [xs[m] = v] for a boolean mask [m]. *)
Definition np_assign {X : Type} (xs : list X) (m : list bool) (v : X) : result (list X) :=
  if (length xs =? length m)%nat
  then Ok (zip_with (λ x (b : bool), if b then v else x) xs m)
  else Raise IndexError.

(** [m.any()] and [m.sum()]. *)
Definition np_any (m : list bool) : bool := existsb id m.
Definition np_sum (m : list bool) : Z := Z.of_nat (length (filter (λ b, b = true) m)).

(** [np.zeros(n)] filled with [zero]. *)
Definition np_zeros {X : Type} (zero : X) (n : PyVal) : result (list X) :=
  match n with
  | VInt z => if z <? 0 then Raise ValueError else Ok (replicate (Z.to_nat z) zero)
  | VBool b => Ok (replicate (Z.to_nat (Z.b2z b)) zero)
  | VFloat _ | VNone => Raise TypeError
  end.

(** ** Parameter bundles *)

(** A model: its parameters, leaf by leaf, and its optimizer state. *)
Record Model : Type := mkModel {
  params : list Q;
  opt_state : list Q
}.

Record ActorCritic : Type := mkActorCritic {
  actor : Model;
  critic : Model;
  target_critic : Model;
  temp : Model
}.

(** Modelled from the spec: [robojax.agents.sac.loss.update_target] is not
    part of the sources at hand.  The spec gives it as the Polyak average
    [target <- tau * critic + (1 - tau) * target], applied parameter-wise;
    the two bundles must have the same leaves, and the optimizer state of the
    target is kept. *)
Definition loss_update_target (critic target_critic : Model) (tau : PyVal) : result Model :=
  t ← py_float tau;
  if (length (params critic) =? length (params target_critic))%nat then
    Ok {| params := zip_with (λ c g, t * c + (1 - t) * g)%Q
                      (params critic) (params target_critic);
          opt_state := opt_state target_critic |}
  else Raise ValueError.

(** ** The collaborators of the agent

    The environment, the networks, the loss functions and the evaluation loop
    live outside [sac.py]; they are the parameters of the development. *)

Class Spaces : Type := {
  Obs : Type;                (* observation of one environment *)
  Act : Type;                (* action of one environment *)
  Rew : Type;                (* a float: reward, entropy, temperature *)
  EnvState : Type;           (* explicit state of a functional environment *)
  Info : Type;
  World : Type;              (* hidden state of the stateful simulators *)
  CriticUpdateAux : Type;
  ActorUpdateAux : Type;
  TempUpdateAux : Type
}.

(** [TimeStep] of config.py: a structure of arrays. *)
Record TimeStep `{Spaces} : Type := mkTimeStep {
  action : list Act;
  env_obs : list Obs;
  next_env_obs : list Obs;
  reward : list Rew;
  mask : list bool
}.

Class Collaborators `{Spaces} : Type := {
  rew_zero : Rew;
  rew_add : Rew → Rew → Rew;
  (* [seed_sampler(rng_key)] *)
  seed_sampler : PRNGKey → list Act;
  (* [actor(env_obs).sample(seed=rng_key)] *)
  actor_sample : Model → list Obs → PRNGKey → list Act;
  (* functional environment: [self.env_reset], [self.env_step] *)
  env_reset : PRNGKey → list Obs * EnvState;
  env_step : PRNGKey → option EnvState → list Act →
             list Obs * EnvState * list Rew * list bool * Info;
  (* stateful environment: [self.env.reset()], [self.env.step(a)] *)
  gym_reset : World → list Obs * World;
  gym_step : World → list Act → list Obs * list Rew * list bool * Info * World;
  (* [self.eval_loop.rollout]: the flattened [ep_ret], [ep_len], [done] *)
  rollout : World → list PRNGKey → Model → PyVal →
            list Rew * list Z * list bool * World;
  (* the indices drawn by [sample_random_batch] *)
  randint : PRNGKey → nat → nat → list nat;
  (* robojax.agents.sac.loss *)
  loss_update_critic : PRNGKey → Model → Model → Model → Model → TimeStep →
                       PyVal → PyVal → Model * CriticUpdateAux;
  loss_update_actor : PRNGKey → Model → Model → Model → TimeStep →
                      Model * ActorUpdateAux;
  loss_update_temp : Model → Rew → PyVal → Model * TempUpdateAux;
  loss_ActorUpdateAux : ActorUpdateAux;
  loss_TempUpdateAux : Rew → TempUpdateAux;
  entropy : ActorUpdateAux → Rew;
  (* [temp()] *)
  temp_value : Model → Rew
}.

(** A local variable of [train] that may not have been assigned yet. *)
Inductive Local (T : Type) : Type :=
| Unbound
| Bound (v : T).
Arguments Unbound {T}.
Arguments Bound {T} v.

Section Agent.
Context `{Collaborators}.

(** ** The replay buffer *)

(** Modelled from the spec: what the buffer keeps of one environment at one
    timestep, the five fields of a transition. *)
Record Row : Type := mkRow {
  row_env_obs : Obs;
  row_action : Act;
  row_reward : Rew;
  row_mask : bool;
  row_next_env_obs : Obs
}.

(** Modelled from the spec: the ring of one environment; [cursor] is the next
    slot written, [fill] the number of slots written so far, capped at the
    capacity. *)
Record EnvRing : Type := mkEnvRing {
  slots : list (option Row);
  cursor : nat;
  fill : nat
}.

(** Modelled from the spec: the buffer, one ring per environment. *)
Record GenericBuffer : Type := mkGenericBuffer {
  capacity_per_env : nat;
  rings : list EnvRing
}.

(** [ceil(a / n)] for a positive [n]. *)
Definition ceil_div (a n : Z) : Z := (a + n - 1) / n.

(** Modelled from the spec: [robojax.data.buffer.GenericBuffer] is not part
    of the sources at hand.  The spec gives a ring per environment, of
    capacity [ceil(buffer_size / n_envs)], allocated once at construction. *)
Definition GenericBuffer_new (buffer_size : PyVal) (n_envs : Z) : result GenericBuffer :=
  n ← as_num buffer_size;
  match n with
  | NInt size =>
      if n_envs =? 0 then Raise ZeroDivisionError
      else if (size <? 0) || (n_envs <? 0) then Raise ValueError
      else
        let cap := Z.to_nat (ceil_div size n_envs) in
        Ok {| capacity_per_env := cap;
              rings := replicate (Z.to_nat n_envs)
                         {| slots := replicate cap None; cursor := 0; fill := 0 |} |}
  | NFloat _ => Raise TypeError
  end.

(** Modelled from the spec: one write at the cursor, which then advances
    modulo the capacity. *)
Definition ring_push (cap : nat) (r : EnvRing) (x : Row) : EnvRing :=
  {| slots := <[cursor r := Some x]> (slots r);
     cursor := (cursor r + 1) `mod` cap;
     fill := Nat.min (fill r + 1) cap |}.

(** Modelled from the spec: the rows of one timestep, one per environment;
    the five fields must agree on the number of environments. *)
Definition rows_of (t : TimeStep) : result (list Row) :=
  let n := length (mask t) in
  if (length (env_obs t) =? n)%nat && (length (action t) =? n)%nat
     && (length (reward t) =? n)%nat && (length (next_env_obs t) =? n)%nat
  then Ok (zip_with (λ '(o, a, r, m) o', mkRow o a r m o')
             (zip (zip (zip (env_obs t) (action t)) (reward t)) (mask t))
             (next_env_obs t))
  else Raise ValueError.

(** Modelled from the spec: [store] writes one timestep at the cursor of each
    environment and advances it modulo the capacity; a per-environment count
    other than the one the buffer was built for is fatal. *)
Definition store (b : GenericBuffer) (t : TimeStep) : result GenericBuffer :=
  rows ← rows_of t;
  if (length rows =? length (rings b))%nat then
    Ok {| capacity_per_env := capacity_per_env b;
          rings := zip_with (ring_push (capacity_per_env b)) (rings b) rows |}
  else Raise ValueError.

(** Modelled from the spec: the filled (environment, timestep) pairs. *)
Definition valid_rows (b : GenericBuffer) : list Row :=
  concat (map (λ r, omap id (take (fill r) (slots r))) (rings b)).

(** The batch made of some rows, field by field. *)
Definition batch_of (rows : list Row) : TimeStep :=
  {| action := map row_action rows;
     env_obs := map row_env_obs rows;
     next_env_obs := map row_next_env_obs rows;
     reward := map row_reward rows;
     mask := map row_mask rows |}.

(** Modelled from the spec: [sample_random_batch] draws [batch_size] indices
    among the filled pairs; sampling an empty buffer is fatal. *)
Definition sample_random_batch (b : GenericBuffer) (key : PRNGKey) (batch_size : PyVal)
  : result TimeStep :=
  n ← as_num batch_size;
  match n with
  | NInt size =>
      let valid := valid_rows b in
      if size <? 0 then Raise ValueError
      else match valid with
           | [] => Raise ValueError
           | r0 :: _ =>
               Ok (batch_of (map (λ i, default r0 (valid !! (i `mod` length valid)%nat))
                               (randint key (Z.to_nat size) (length valid))))
           end
  | NFloat _ => Raise TypeError
  end.

(** ** sac.py: the agent *)

Record SAC : Type := mkSAC {
  jax_env : bool;
  cfg : PyObj;
  step : Z;
  replay_buffer : GenericBuffer;
  action_dim : Z
}.

(** The [cfg] argument of the constructor: a dictionary or a ready object. *)
Inductive CfgArg : Type :=
| CfgDict (d : PyObj)
| CfgObj (o : PyObj).

(** [SAC.__init__].  The buffer is built with [n_envs=1], whatever
    [cfg.num_envs] says. *)
Definition SAC_init (jax : bool) (act_dim : Z) (c : CfgArg) : result SAC :=
  cfg0 ← match c with CfgDict d => SACConfig d | CfgObj o => Ok o end;
  capacity ← getattr cfg0 "replay_buffer_capacity";
  buf ← GenericBuffer_new capacity 1;
  te ← getattr cfg0 "target_entropy";
  let cfg1 := match te with
              | VNone => <["target_entropy" := VFloat (- act_dim # 2)]> cfg0
              | _ => cfg0
              end in
  Ok {| jax_env := jax; cfg := cfg1; step := 0; replay_buffer := buf;
        action_dim := act_dim |}.

(** [SAC._sample_action] *)
Definition _sample_action (rng_key : PRNGKey) (actor : Model) (env_obs : list Obs)
    (seed : bool) : list Act :=
  if seed then seed_sampler rng_key
  else actor_sample actor env_obs rng_key.

(** [SAC._env_step]: the result and the new hidden state of the simulator. *)
Definition _env_step (self : SAC) (w : World) (rng_key : PRNGKey) (env_obs : list Obs)
    (env_state : option EnvState) (actor : Model) (seed : bool)
  : (list Act * list Obs * option EnvState * list Rew * list bool * Info) * World :=
  let '(_, act_rng_key, env_rng_key) := split3 rng_key in
  let a := _sample_action act_rng_key actor env_obs seed in
  if jax_env self then
    let '(next_env_obs, next_env_state, reward, done, info) :=
      env_step env_rng_key env_state a in
    ((a, next_env_obs, Some next_env_state, reward, done, info), w)
  else
    let '(next_env_obs, reward, done, info, w') := gym_step w a in
    ((a, next_env_obs, None, reward, done, info), w').

(** The [aux] dictionary returned by [update_parameters]. *)
Record Aux : Type := mkAux {
  critic_update_aux : CriticUpdateAux;
  actor_update_aux : ActorUpdateAux;
  temp_update_aux : TempUpdateAux
}.

(** [SAC.update_parameters] *)
Definition update_parameters (self : SAC) (rng_key : PRNGKey)
    (actor critic target_critic temp : Model) (batch : TimeStep)
    (update_actor update_target : bool)
  : result (Model * Model * Model * Model * Aux) :=
  let '(rng_key, critic_update_rng_key) := split2 rng_key in
  discount ← getattr (cfg self) "discount";
  backup_entropy ← getattr (cfg self) "backup_entropy";
  let '(new_critic, critic_update_aux) :=
    loss_update_critic critic_update_rng_key actor critic target_critic temp batch
      discount backup_entropy in
  let '(new_actor, actor_update_aux) := (actor, loss_ActorUpdateAux) in
  let '(new_temp, temp_update_aux) := (temp, loss_TempUpdateAux (temp_value temp)) in
  let new_target := target_critic in
  new_target ←
    (if update_target then
       tau ← getattr (cfg self) "tau";
       loss_update_target critic target_critic tau
     else Ok new_target);
  '(new_actor, actor_update_aux, new_temp, temp_update_aux) ←
    (if update_actor then
       let '(rng_key, actor_update_rng_key) := split2 rng_key in
       let '(new_actor, actor_update_aux) :=
         loss_update_actor actor_update_rng_key actor critic temp batch in
       learnable_temp ← getattr (cfg self) "learnable_temp";
       if py_truthy learnable_temp then
         target_entropy ← getattr (cfg self) "target_entropy";
         let '(new_temp, temp_update_aux) :=
           loss_update_temp temp (entropy actor_update_aux) target_entropy in
         Ok (new_actor, actor_update_aux, new_temp, temp_update_aux)
       else Ok (new_actor, actor_update_aux, new_temp, temp_update_aux)
     else Ok (new_actor, actor_update_aux, new_temp, temp_update_aux));
  Ok (new_actor, new_critic, new_target, new_temp,
      {| critic_update_aux := critic_update_aux;
         actor_update_aux := actor_update_aux;
         temp_update_aux := temp_update_aux |}).

(** ** The training loop *)

(** The calls the loop makes on the logger, the evaluation loop, the
    environment, the buffer and the update, in the order they happen. *)
Inductive Event : Type :=
| LoggerStoreEpisodes (tag : string) (ep_ret : list Rew) (ep_len : list Z)
| LoggerStoreCritic (caux : CriticUpdateAux) (taux : TempUpdateAux)
| LoggerStoreActor (aaux : ActorUpdateAux) (target_entropy : Q)
| LoggerStoreTemp (taux : TempUpdateAux)
| LoggerLog (at_step : Z)
| LoggerReset
| Evaluate (at_step : Z) (key : PRNGKey)
| EnvStep (at_step : Z) (key : PRNGKey) (seed : bool) (a : list Act)
| Store (t : TimeStep)
| UpdateParameters (at_step : Z) (key : PRNGKey) (update_actor update_target : bool).

(** The agent, the objects [train] mutates, and the locals of [train]. *)
Record Train : Type := mkTrain {
  t_self : SAC;
  t_ac : ActorCritic;
  t_world : World;
  t_events : list Event;
  t_rng_key : PRNGKey;
  t_episodes : Z;
  t_ep_lens : list Z;
  t_ep_rets : list Rew;
  t_dones : list bool;
  t_env_obs : list Obs;
  t_env_states : Local (option EnvState)
}.

(** [SAC.evaluate] *)
Definition evaluate (self : SAC) (w : World) (rng_key : PRNGKey) (ac : ActorCritic)
  : result (list Event * World) :=
  num_eval_envs ← getattr (cfg self) "num_eval_envs";
  n ← as_num num_eval_envs;
  match n with
  | NInt z =>
      match split rng_key (Z.to_nat (z + 1)) with
      | _ :: ((_ :: _) as eval_rng_keys) =>
          eval_steps ← getattr (cfg self) "eval_steps";
          let '(eval_ep_rets, eval_ep_lens, eval_episode_ends, w') :=
            rollout w eval_rng_keys (actor ac) eval_steps in
          eval_ep_rets ← np_select eval_ep_rets eval_episode_ends;
          eval_ep_lens ← np_select eval_ep_lens eval_episode_ends;
          Ok ([LoggerStoreEpisodes "test" eval_ep_rets eval_ep_lens;
               LoggerLog (step self); LoggerReset], w')
      | _ => Raise ValueError
      end
  | NFloat _ => Raise TypeError
  end.

(** The test of line 112: [step % eval_freq == 0 and step > 0 and
    step >= num_seed_steps and eval_freq > 0], left to right. *)
Definition eval_due (self : SAC) : result bool :=
  eval_freq ← getattr (cfg self) "eval_freq";
  c1 ← py_mod_is_zero (step self) eval_freq;
  if c1 && (0 <? step self) then
    num_seed_steps ← getattr (cfg self) "num_seed_steps";
    c3 ← py_ge (step self) num_seed_steps;
    if (c3 : bool) then
      eval_freq ← getattr (cfg self) "eval_freq";
      py_pos eval_freq
    else Ok false
  else Ok false.

(** Lines 112-114. *)
Definition maybe_evaluate (t : Train) : result Train :=
  due ← eval_due (t_self t);
  if (due : bool) then
    let '(rng_key, eval_rng_key) := split2 (t_rng_key t) in
    '(ev, w) ← evaluate (t_self t) (t_world t) eval_rng_key (t_ac t);
    Ok {| t_self := t_self t; t_ac := t_ac t; t_world := w;
          t_events := t_events t ++ Evaluate (step (t_self t)) eval_rng_key :: ev;
          t_rng_key := rng_key; t_episodes := t_episodes t;
          t_ep_lens := t_ep_lens t; t_ep_rets := t_ep_rets t;
          t_dones := t_dones t; t_env_obs := t_env_obs t;
          t_env_states := t_env_states t |}
  else Ok t.

(** Lines 115-126. *)
Definition flush_episodes (t : Train) : result Train :=
  let dones := t_dones t in
  if np_any dones then
    done_rets ← np_select (t_ep_rets t) dones;
    done_lens ← np_select (t_ep_lens t) dones;
    ep_lens ← np_assign (t_ep_lens t) dones 0;
    ep_rets ← np_assign (t_ep_rets t) dones rew_zero;
    Ok {| t_self := t_self t; t_ac := t_ac t; t_world := t_world t;
          t_events := t_events t ++
            [LoggerStoreEpisodes "train" done_rets done_lens;
             LoggerLog (step (t_self t)); LoggerReset];
          t_rng_key := t_rng_key t; t_episodes := t_episodes t + np_sum dones;
          t_ep_lens := ep_lens; t_ep_rets := ep_rets;
          t_dones := dones; t_env_obs := t_env_obs t;
          t_env_states := t_env_states t |}
  else Ok t.

(** The mask of line 138: [(~dones) | (ep_lens == max_episode_length)]. *)
Definition compute_mask (dones : list bool) (ep_lens : list Z) (max_episode_length : PyVal)
  : result (list bool) :=
  m ← broadcast (map negb dones)
        (map (λ l, np_eq_scalar l max_episode_length) ep_lens);
  Ok (map (λ p, fst p || snd p) m).

(** Lines 128-154: one environment step, stored in the buffer. *)
Definition interact (t : Train) : result Train :=
  let self := t_self t in
  let '(rng_key, env_rng_key) := split2 (t_rng_key t) in
  env_states ← match t_env_states t with
               | Unbound => Raise (UnboundLocalError "env_states")
               | Bound v => Ok v
               end;
  num_seed_steps ← getattr (cfg self) "num_seed_steps";
  seed ← py_lt (step self) num_seed_steps;
  let '(actions, next_env_obs, next_env_states, rewards, dones, infos, w) :=
    _env_step self (t_world t) env_rng_key (t_env_obs t) env_states (actor (t_ac t)) seed in
  let ep_lens := map (λ l, l + 1) (t_ep_lens t) in
  ep_rets ← np_iadd rew_add (t_ep_rets t) rewards;
  let step' := step self + 1 in
  max_episode_length ← getattr (cfg self) "max_episode_length";
  mask ← compute_mask dones ep_lens max_episode_length;
  let stored := {| env_obs := t_env_obs t; reward := rewards; action := actions;
                   mask := mask; next_env_obs := next_env_obs |} in
  buf ← store (replay_buffer self) stored;
  Ok {| t_self := {| jax_env := jax_env self; cfg := cfg self; step := step';
                     replay_buffer := buf; action_dim := action_dim self |};
        t_ac := t_ac t; t_world := w;
        t_events := t_events t ++
          [EnvStep (step self) env_rng_key seed actions; Store stored];
        t_rng_key := rng_key; t_episodes := t_episodes t;
        t_ep_lens := ep_lens; t_ep_rets := ep_rets;
        t_dones := dones; t_env_obs := next_env_obs;
        t_env_states := Bound next_env_states |}.

(** Lines 188-208: what goes to the logger after an update. *)
Definition log_update (self : SAC) (aux : Aux) (update_actor : bool) : result (list Event) :=
  log_freq ← getattr (cfg self) "log_freq";
  c1 ← py_pos log_freq;
  if (c1 : bool) then
    log_freq ← getattr (cfg self) "log_freq";
    c2 ← py_mod_is_zero (step self) log_freq;
    if (c2 : bool) then
      actor_logs ←
        (if update_actor then
           target_entropy ← getattr (cfg self) "target_entropy";
           te ← py_float target_entropy;
           learnable_temp ← getattr (cfg self) "learnable_temp";
           Ok (LoggerStoreActor (actor_update_aux aux) te ::
               (if py_truthy learnable_temp
                then [LoggerStoreTemp (temp_update_aux aux)] else []))
         else Ok []);
      Ok (LoggerStoreCritic (critic_update_aux aux) (temp_update_aux aux) ::
          actor_logs ++ [LoggerLog (step self); LoggerReset])
    else Ok []
  else Ok [].

(** Lines 157-208: the update of the policy. *)
Definition learn (t : Train) : result Train :=
  let self := t_self t in
  num_seed_steps ← getattr (cfg self) "num_seed_steps";
  warm ← py_ge (step self) num_seed_steps;
  if (warm : bool) then
    let '(rng_key, update_rng_key, sample_key) := split3 (t_rng_key t) in
    actor_update_freq ← getattr (cfg self) "actor_update_freq";
    update_actor ← py_mod_is_zero (step self) actor_update_freq;
    target_update_freq ← getattr (cfg self) "target_update_freq";
    update_target ← py_mod_is_zero (step self) target_update_freq;
    batch_size ← getattr (cfg self) "batch_size";
    batch ← sample_random_batch (replay_buffer self) sample_key batch_size;
    '(new_actor, new_critic, new_target_critic, new_temp, aux) ←
      update_parameters self update_rng_key (actor (t_ac t)) (critic (t_ac t))
        (target_critic (t_ac t)) (temp (t_ac t)) batch update_actor update_target;
    logs ← log_update self aux update_actor;
    Ok {| t_self := self;
          t_ac := {| actor := new_actor; critic := new_critic;
                     target_critic := new_target_critic; temp := new_temp |};
          t_world := t_world t;
          t_events := t_events t ++
            UpdateParameters (step self) update_rng_key update_actor update_target :: logs;
          t_rng_key := rng_key; t_episodes := t_episodes t;
          t_ep_lens := t_ep_lens t; t_ep_rets := t_ep_rets t;
          t_dones := t_dones t; t_env_obs := t_env_obs t;
          t_env_states := t_env_states t |}
  else Ok t.

(** The body of the [while] loop. *)
Definition train_iter (t : Train) : result Train :=
  t ← maybe_evaluate t;
  t ← flush_episodes t;
  t ← interact t;
  learn t.

(** The test of the [while] loop: [self.step < self.cfg.num_train_steps]. *)
Definition loop_cond (self : SAC) : result bool :=
  num_train_steps ← getattr (cfg self) "num_train_steps";
  py_lt (step self) num_train_steps.

(** The loop, unrolled at most [fuel] times. *)
Fixpoint train_loop (fuel : nat) (t : Train) : result Train :=
  go ← loop_cond (t_self t);
  if (go : bool) then
    match fuel with
    | O => Ok t
    | S fuel => t ← train_iter t; train_loop fuel t
    end
  else Ok t.

(** The number of times the test of the loop can still succeed: every
    iteration adds one to [self.step]. *)
Definition iterations_left (a : Z) (v : PyVal) : nat :=
  match v with
  | VInt z => Z.to_nat (z - a)
  | VBool b => Z.to_nat (Z.b2z b - a)
  | VFloat q => Z.to_nat (Qceiling q - a)
  | VNone => 0
  end.

(** [SAC.train]: the state it leaves behind. *)
Definition train (self : SAC) (w : World) (rng_key : PRNGKey) (ac : ActorCritic)
  : result Train :=
  num_envs ← getattr (cfg self) "num_envs";
  ep_lens ← np_zeros 0 num_envs;
  ep_rets ← np_zeros rew_zero num_envs;
  dones ← np_zeros false num_envs;
  let '(rng_key, reset_rng_key) := split2 rng_key in
  let '(env_obs, env_states, w) :=
    if jax_env self then
      let '(env_obs, env_state) := env_reset reset_rng_key in
      (env_obs, Unbound, w)
    else
      let '(env_obs, w') := gym_reset w in
      (env_obs, Bound None, w') in
  num_train_steps ← getattr (cfg self) "num_train_steps";
  train_loop (iterations_left (step self) num_train_steps)
    {| t_self := self; t_ac := ac; t_world := w; t_events := [];
       t_rng_key := rng_key; t_episodes := 0;
       t_ep_lens := ep_lens; t_ep_rets := ep_rets; t_dones := dones;
       t_env_obs := env_obs; t_env_states := env_states |}.

(** [self.cfg.name = v], set on the agent after its construction. *)
Definition set_cfg (self : SAC) (name : string) (v : PyVal) : SAC :=
  {| jax_env := jax_env self; cfg := <[name := v]> (cfg self); step := step self;
     replay_buffer := replay_buffer self; action_dim := action_dim self |}.

(** ** What is observed of a run *)

(** What line 112 asks of the step counter and of the configuration. *)
Definition eval_conditions (self : SAC) : Prop :=
  ∃ (f n : Q) (k : Z),
    cfg self !! "eval_freq" ≫= py_Q = Some f ∧
    cfg self !! "num_seed_steps" ≫= py_Q = Some n ∧
    (inject_Z (step self) == inject_Z k * f)%Q ∧
    0 < step self ∧
    (n <= inject_Z (step self))%Q ∧
    (0 < f)%Q.

(** ** What a run shows of its schedule *)

(** The schedule-relevant part of an event. *)
Inductive Label : Type :=
| LStep (at_step : Z) (seed : bool)
| LStore
| LUpdate (at_step : Z) (update_actor update_target : bool).

Definition label (e : Event) : option Label :=
  match e with
  | EnvStep s _ seed _ => Some (LStep s seed)
  | Store _ => Some LStore
  | UpdateParameters s _ ua ut => Some (LUpdate s ua ut)
  | _ => None
  end.

Definition labels (ev : list Event) : list Label := omap label ev.

Definition is_store (l : Label) : bool :=
  match l with LStore => true | _ => false end.
Definition is_update (l : Label) : bool :=
  match l with LUpdate _ _ _ => true | _ => false end.
Definition is_actor_update (l : Label) : bool :=
  match l with LUpdate _ ua _ => ua | _ => false end.

(** Every call of [update_parameters] runs the critic update once, and the
    actor update once when [update_actor] is set. *)
Definition critic_updates (ev : list Event) : nat :=
  length (List.filter is_update (labels ev)).
Definition actor_updates (ev : list Event) : nat :=
  length (List.filter is_actor_update (labels ev)).
Definition stores (ls : list Label) : Z :=
  Z.of_nat (length (List.filter is_store ls)).

(** The action returned by [_env_step]. *)
Definition step_action
    (r : (list Act * list Obs * option EnvState * list Rew * list bool * Info) * World)
  : list Act :=
  fst (fst (fst (fst (fst (fst r))))).

(** The number of transitions stored by a sequence of events. *)
Definition stored (ev : list Event) : Z := stores (labels ev).


(** The labels of the iteration that starts at step counter [s], for integer
    [num_seed_steps], [actor_update_freq] and [target_update_freq]. *)
Definition iteration_labels (nss auf tuf s : Z) : list Label :=
  [LStep s (s <? nss); LStore] ++
  (if nss <=? s + 1
   then [LUpdate (s + 1) ((s + 1) mod auf =? 0) ((s + 1) mod tuf =? 0)]
   else []).

(** The labels of [n] iterations in a row. *)
Fixpoint run_labels (nss auf tuf s : Z) (n : nat) : list Label :=
  match n with
  | O => []
  | S n => iteration_labels nss auf tuf s ++ run_labels nss auf tuf (s + 1) n
  end.

(** ** The scenario in a world of one environment *)

(** A stateful world of one environment: every array the environment and
    the samplers return has one entry, and the critic update keeps the
    number of parameters. *)
Definition single_env_world : Prop :=
  (∀ w, length (fst (gym_reset w)) = 1%nat) ∧
  (∀ w a, match gym_step w a with
          | (o, r, d, _, _) => length o = 1%nat ∧ length r = 1%nat ∧ length d = 1%nat
          end) ∧
  (∀ k, length (seed_sampler k) = 1%nat) ∧
  (∀ m o k, length (actor_sample m o k) = 1%nat) ∧
  (∀ k a c tc tp b d e,
     length (params (fst (loss_update_critic k a c tc tp b d e))) = length (params c)).

(** The attributes of the scenario, as [train] reads them. *)
Record scenario_cfg (c : PyObj) : Prop := {
  sc_num_train_steps : c !! "num_train_steps" = Some (VInt 30);
  sc_num_envs : c !! "num_envs" = Some (VInt 1);
  sc_eval_freq : c !! "eval_freq" = Some (VInt 5000);
  sc_num_seed_steps : c !! "num_seed_steps" = Some (VInt 20);
  sc_max_episode_length : is_Some (c !! "max_episode_length");
  sc_actor_update_freq : c !! "actor_update_freq" = Some (VInt 2);
  sc_target_update_freq : c !! "target_update_freq" = Some (VInt 1);
  sc_batch_size : c !! "batch_size" = Some (VInt 10);
  sc_discount : is_Some (c !! "discount");
  sc_backup_entropy : is_Some (c !! "backup_entropy");
  sc_tau : c !! "tau" = Some (VFloat (5 # 1000));
  sc_learnable_temp : c !! "learnable_temp" = Some (VBool true);
  sc_target_entropy : is_Some (c !! "target_entropy");
  sc_log_freq : c !! "log_freq" = Some (VInt 1000)
}.

(** The ring of the agent's buffer once something may have been stored. *)
Definition ring_ok (r : EnvRing) : Prop :=
  length (slots r) = 100%nat ∧ (cursor r < 100)%nat ∧
  (fill r = 0%nat → cursor r = 0%nat) ∧
  ((0 < fill r)%nat → is_Some (slots r !! 0%nat ≫= id)).

(** The states the loop of the scenario goes through in such a world. *)
Record scenario_state (t : Train) : Prop := {
  ss_cfg : scenario_cfg (cfg (t_self t));
  ss_gym : jax_env (t_self t) = false;
  ss_step : 0 ≤ step (t_self t) ≤ 30;
  ss_ep_lens : length (t_ep_lens t) = 1%nat;
  ss_ep_rets : length (t_ep_rets t) = 1%nat;
  ss_dones : length (t_dones t) = 1%nat;
  ss_env_obs : length (t_env_obs t) = 1%nat;
  ss_env_states : ∃ st, t_env_states t = Bound st;
  ss_capacity : capacity_per_env (replay_buffer (t_self t)) = 100%nat;
  ss_ring : ∃ r, rings (replay_buffer (t_self t)) = [r] ∧ ring_ok r;
  ss_params : length (params (critic (t_ac t))) = length (params (target_critic (t_ac t)))
}.


(** ** More of what is observed of a run *)

Definition is_step (l : Label) : bool :=
  match l with LStep _ _ => true | _ => false end.
Definition is_seeded_step (l : Label) : bool :=
  match l with LStep _ seed => seed | _ => false end.

(** The environment steps of a run, and those taken with the seed sampler. *)
Definition env_steps (ev : list Event) : nat :=
  length (List.filter is_step (labels ev)).
Definition seeded_steps (ev : list Event) : nat :=
  length (List.filter is_seeded_step (labels ev)).

(** The timesteps handed to the buffer, in order. *)
Definition stored_steps (ev : list Event) : list TimeStep :=
  omap (λ e, match e with Store ts => Some ts | _ => None end) ev.

(** The keys handed to [evaluate], [_env_step] and [update_parameters]. *)
Definition keys_of (ev : list Event) : list PRNGKey :=
  omap (λ e, match e with
             | Evaluate _ key | EnvStep _ key _ _ | UpdateParameters _ key _ _ => Some key
             | _ => None
             end) ev.

(** Each stored transition starts from the observation the one before it
    ended on: [obs] is where the first starts, [obs'] where the last ends. *)
Fixpoint chained (obs : list Obs) (l : list TimeStep) (obs' : list Obs) : Prop :=
  match l with
  | [] => obs = obs'
  | ts :: l => env_obs ts = obs ∧ chained (next_env_obs ts) l obs'
  end.

(** [store] after [store], as long as none fails. *)
Definition store_seq (b : GenericBuffer) (l : list TimeStep) : result GenericBuffer :=
  foldl (λ r ts, b ← r; store b ts) (Ok b) l.

(** No key of the list extends another one: the keys are distinct, and so
    is everything split off from them. *)
Definition incomparable (ks : list PRNGKey) : Prop :=
  ∀ (i j : nat) c d, i ≠ j → ks !! i = Some c → ks !! j = Some d → ¬ c `prefix_of` d.

(** The lengths of the episodes reported to the logger under the tag
    [train], in the order they were reported. *)
Definition train_episode_lens (ev : list Event) : list Z :=
  concat (omap (λ e, match e with
                     | LoggerStoreEpisodes tag _ lens =>
                         if String.eqb tag "train" then Some lens else None
                     | _ => None
                     end) ev).

(** The keys given out so far, seen from the key [r] the loop carries on:
    none extends another, none extends [r] or is extended by it, and all
    come from [root]. *)
Definition fresh_for (root r : PRNGKey) (ks : list PRNGKey) : Prop :=
  root `prefix_of` r ∧ incomparable ks ∧
  ∀ c, c ∈ ks → ¬ r `prefix_of` c ∧ ¬ c `prefix_of` r ∧ root `prefix_of` c.

(** What holds of the episode counters each time the loop comes round:
    [s0] is the step the run started at. *)
Definition episodes_ok (s0 : Z) (t : Train) : Prop :=
  t_episodes t = Z.of_nat (length (train_episode_lens (t_events t))) ∧
  Forall (λ l, 1 ≤ l ≤ step (t_self t) - s0) (train_episode_lens (t_events t)) ∧
  Forall (λ l, 0 ≤ l ≤ step (t_self t) - s0) (t_ep_lens t) ∧
  (Forall (λ d, d = false) (t_dones t) ∨ Forall (λ l, 1 ≤ l) (t_ep_lens t)) ∧
  s0 ≤ step (t_self t).

End Agent.

(** The value of a computation that is known to succeed. *)
Definition result_default {T : Type} (d : T) (r : result T) : T :=
  match r with Ok v => v | Raise _ => d end.

(** ** A small world to run the agent in

    One environment whose episodes end every seventh step, integer rewards,
    and losses that only count how often they ran. *)
Module Toy.

#[export] Instance spaces : Spaces := {|
  Obs := Z; Act := Z; Rew := Z; EnvState := Z; Info := unit; World := Z;
  CriticUpdateAux := unit; ActorUpdateAux := unit; TempUpdateAux := unit
|}.

Definition bump (m : Model) : Model :=
  {| params := map (λ p, p + 1)%Q (params m); opt_state := opt_state m |}.

#[export] Instance collaborators : Collaborators := {|
  rew_zero := 0;
  rew_add := Z.add;
  seed_sampler := λ k, [- Z.of_nat (length k)];
  actor_sample := λ m o k, [Z.of_nat (length k)];
  env_reset := λ k, ([0], 0);
  env_step := λ k s a, ([1], 1, [1], [false], tt);
  gym_reset := λ w, ([0], 0);
  gym_step := λ w a, ([w + 1], [1], [(w + 1) mod 7 =? 0], tt, w + 1);
  rollout := λ w ks m n, ([5], [3], [true], w);
  randint := λ k n bound, replicate n 0%nat;
  loss_update_critic := λ k a c tc t b d e, (bump c, tt);
  loss_update_actor := λ k a c t b, (bump a, tt);
  loss_update_temp := λ t e te, (bump t, tt);
  loss_ActorUpdateAux := tt;
  loss_TempUpdateAux := λ _, tt;
  entropy := λ _, 0;
  temp_value := λ _, 0
|}.

Definition model0 : Model := {| params := [0%Q]; opt_state := [] |}.
Definition ac0 : ActorCritic :=
  {| actor := model0; critic := model0; target_critic := model0; temp := model0 |}.

End Toy.

(** The configuration of the end-to-end scenario. *)
Definition scenario_kwargs : PyObj :=
  list_to_map [ ("num_envs", VInt 1); ("replay_buffer_capacity", VInt 100);
                ("batch_size", VInt 10); ("num_seed_steps", VInt 20);
                ("actor_update_freq", VInt 2) ].

(** A configuration with four parallel environments. *)
Definition four_env_kwargs : PyObj :=
  list_to_map [ ("num_envs", VInt 4); ("replay_buffer_capacity", VInt 100);
                ("batch_size", VInt 10); ("num_seed_steps", VInt 20) ].

(** A dictionary with every recognised option. *)
Definition full_kwargs : PyObj :=
  list_to_map ([ ("num_seed_steps", VInt 20); ("replay_buffer_capacity", VInt 100);
                 ("batch_size", VInt 10) ] ++ SACConfig_defaults).

Module Scenario.
Import Toy.

(** The agent of the end-to-end scenario, with the two attributes [train]
    reads beyond the dataclass set by hand. *)
Definition agent : SAC :=
  {| jax_env := false;
     cfg := <["max_episode_length" := VInt 1000]>
              (<["num_train_steps" := VInt 30]>
                 (<["target_entropy" := VFloat (- 1 # 2)]>
                    (scenario_kwargs ∪ list_to_map SACConfig_defaults)));
     step := 0;
     replay_buffer :=
       {| capacity_per_env := 100;
          rings := [ {| slots := replicate 100 None; cursor := 0; fill := 0 |} ] |};
     action_dim := 1 |}.

(** The same agent on a functional environment. *)
Definition set_jax (self : SAC) : SAC :=
  {| jax_env := true; cfg := cfg self; step := step self;
     replay_buffer := replay_buffer self; action_dim := action_dim self |}.

(** The agent after [s] steps in the toy world, the buffer left aside. *)
Definition agent_at (s : Z) : SAC :=
  {| jax_env := false; cfg := cfg agent; step := s;
     replay_buffer := replay_buffer agent; action_dim := 1 |}.

(** The state of the loop at the top of the iteration with step counter
    [s], when the current episode has lasted [len] steps. *)
Definition state_at (s len : Z) : Train :=
  {| t_self := agent_at s; t_ac := ac0; t_world := s; t_events := [];
     t_rng_key := [0%nat]; t_episodes := 0;
     t_ep_lens := [len]; t_ep_rets := [len]; t_dones := [false];
     t_env_obs := [s]; t_env_states := Bound None |}.

(** The whole run of the scenario and its two counts. *)
Definition run : result Train := train agent 0 [] ac0.

(** The states the examples below go through. *)
Definition built : SAC :=
  result_default agent (SAC_init false 1 (CfgDict scenario_kwargs)).
Definition built_full : SAC :=
  result_default agent (SAC_init false 1 (CfgDict full_kwargs)).
Definition final : Train := result_default (state_at 0 0) run.
Definition after_step_6 : Train :=
  result_default (state_at 6 6) (train_iter (state_at 6 6)).
Definition stepped_19 : Train :=
  result_default (state_at 19 5) (interact (state_at 19 5)).
Definition learned_19 : Train := result_default stepped_19 (learn stepped_19).

Definition counts : result (nat * nat) :=
  t ← run; Ok (critic_updates (t_events t), actor_updates (t_events t)).

(** A timestep of four environments, all observing [i]. *)
Definition timestep4 (i : Z) : TimeStep :=
  {| action := [i; i; i; i]; env_obs := [i; i; i; i];
     next_env_obs := [i + 1; i + 1; i + 1; i + 1];
     reward := [0; 0; 0; 0]; mask := [true; true; true; true] |}.

Definition store_all (b : GenericBuffer) (ts : list TimeStep) : result GenericBuffer :=
  foldl (λ r t, b ← r; store b t) (Ok b) ts.

(** Fifty timesteps of four environments stored in a buffer built for
    four environments and a total capacity of 100: the observations kept
    for each environment. *)
Definition kept_of_fifty : result (list (list Z)) :=
  b ← GenericBuffer_new (VInt 100) 4;
  b ← store_all b (map (λ i, timestep4 (Z.of_nat i)) (seq 0 50));
  Ok (map (λ r, map row_env_obs (omap id (take (fill r) (slots r)))) (rings b)).

(** The buffer the agent builds for the four-environment configuration. *)
Definition four_env_buffer : result (option PyVal * nat * nat) :=
  self ← SAC_init false 1 (CfgDict four_env_kwargs);
  Ok (cfg self !! "num_envs", length (rings (replay_buffer self)),
      capacity_per_env (replay_buffer self)).

Definition four_env_store : result GenericBuffer :=
  self ← SAC_init false 1 (CfgDict four_env_kwargs);
  store (replay_buffer self) (timestep4 0).

End Scenario.

(** ** utils/make_env.py

    [make_env] builds an environment out of constructors of other
    libraries.  The model keeps the calls it makes, as a term: which
    environment is asked for and which wrappers are put around it, in which
    order; what the libraries do with the calls is theirs.  Their
    registries are a parameter, and the imports of the functional branch
    are taken to succeed; the [EnvMeta] returned beside the environment
    holds samples drawn from it and is left out. *)











(** Further states of the toy world. *)
Module Examples.
Import Toy Scenario.

(** An agent on a functional environment whose counter is already at
    [num_train_steps], and what [train] leaves of it. *)
Definition finished : SAC := set_jax (agent_at 30).
Definition finished_run : Train :=
  result_default (state_at 0 0) (train finished 0 [] ac0).

(** An agent past its seed steps with the three frequencies at zero. *)
Definition no_freq (self : SAC) : SAC :=
  set_cfg (set_cfg (set_cfg self "eval_freq" (VInt 0)) "actor_update_freq" (VInt 0))
    "log_freq" (VInt 0).
Definition no_freq_state : Train :=
  {| t_self := no_freq (agent_at 25); t_ac := ac0; t_world := 25; t_events := [];
     t_rng_key := [0%nat]; t_episodes := 0;
     t_ep_lens := [4]; t_ep_rets := [4]; t_dones := [false];
     t_env_obs := [25]; t_env_states := Bound None |}.

(** One evaluation of the agent of the scenario. *)
Definition evaluated : list Event * World :=
  result_default ([], 0) (evaluate agent 0 [] ac0).

(** A dictionary with an option the dataclass does not declare. *)
Definition unknown_kwargs : PyObj := <["learning_rate" := VInt 1]> scenario_kwargs.


End Examples.

(** * Theorems *)
(** ** Facts about the error monad and the arithmetic of attributes *)

Lemma bind_Ok {T U} (m : result T) (f : T → result U) (u : U) :
  m ≫= f = Ok u ↔ ∃ v, m = Ok v ∧ f v = Ok u.
Proof.
  destruct m as [v|e]; simpl; split.
  - intros Hf. exists v. split; [reflexivity | exact Hf].
  - intros (v' & Hv & Hf). injection Hv as ->. exact Hf.
  - intros Hf. discriminate Hf.
  - intros (v' & Hv & _). discriminate Hv.
Qed.

(** Peel the first bind off a hypothesis [m ≫= f = Ok u]. *)
Tactic Notation "bind_inv" hyp(E) "as" ident(v) ident(Hv) :=
  apply bind_Ok in E as (v & Hv & E).

Ltac ok_inv H := injection H as H; try subst.

Lemma getattr_Ok o name v : getattr o name = Ok v ↔ o !! name = Some v.
Proof.
  unfold getattr. destruct (o !! name) as [x|]; split; intros E;
    try discriminate E; by injection E as ->.
Qed.

Lemma py_ge_true a v : py_ge a v = Ok true → ∃ q, py_Q v = Some q ∧ (q <= inject_Z a)%Q.
Proof.
  destruct v as [z|q|b|]; simpl; intros E; try discriminate E; ok_inv E.
  - exists (inject_Z z). split; [reflexivity|]. rewrite <- Zle_Qle. lia.
  - exists q. split; [reflexivity|]. by apply Qle_bool_iff.
  - exists (inject_Z (Z.b2z b)). split; [reflexivity|]. rewrite <- Zle_Qle. lia.
Qed.

Lemma py_pos_true v : py_pos v = Ok true → ∃ q, py_Q v = Some q ∧ (0 < q)%Q.
Proof.
  destruct v as [z|q|b|]; simpl; intros E; try discriminate E; ok_inv E.
  - exists (inject_Z z). split; [reflexivity|]. change 0%Q with (inject_Z 0).
    rewrite <- Zlt_Qlt. lia.
  - exists q. split; [reflexivity|]. apply Qnot_le_lt. intros Hle.
    apply Qle_bool_iff in Hle. by rewrite Hle in E.
  - exists (inject_Z (Z.b2z b)). split; [reflexivity|]. change 0%Q with (inject_Z 0).
    rewrite <- Zlt_Qlt. lia.
Qed.

Lemma py_lt_true a v : py_lt a v = Ok true → ∃ q, py_Q v = Some q ∧ (inject_Z a < q)%Q.
Proof.
  destruct v as [z|q|b|]; simpl; intros E; try discriminate E; ok_inv E.
  - exists (inject_Z z). split; [reflexivity|]. rewrite <- Zlt_Qlt. lia.
  - exists q. split; [reflexivity|]. apply Qnot_le_lt. intros Hle.
    apply Qle_bool_iff in Hle. by rewrite Hle in E.
  - exists (inject_Z (Z.b2z b)). split; [reflexivity|]. rewrite <- Zlt_Qlt. lia.
Qed.

Lemma py_mod_is_zero_true a v :
  py_mod_is_zero a v = Ok true →
  ∃ q (k : Z), py_Q v = Some q ∧ ¬ (q == 0)%Q ∧ (inject_Z a == inject_Z k * q)%Q.
Proof.
  assert (Hint : ∀ z,
            (if z =? 0 then Raise ZeroDivisionError else Ok (a mod z =? 0)) = Ok true →
            ¬ (inject_Z z == 0)%Q ∧ (inject_Z a == inject_Z (a / z) * inject_Z z)%Q).
  { intros z E. destruct (Z.eqb_spec z 0) as [|Hz]; [discriminate E|]. ok_inv E.
    split.
    - change 0%Q with (inject_Z 0). rewrite inject_Z_injective. exact Hz.
    - rewrite <- inject_Z_mult, inject_Z_injective.
      pose proof (Z.div_mod a z Hz). lia. }
  destruct v as [z|q|b|]; unfold py_mod_is_zero; cbn [as_num mbind result_bind];
    intros E; try discriminate E.
  - exists (inject_Z z), (a / z). split; [reflexivity|]. by apply Hint.
  - destruct (Qeq_bool q 0) eqn:Hq; [discriminate E|]. ok_inv E.
    exists q, (Qfloor (inject_Z a / q)). split; [reflexivity|].
    assert (Hq0 : ¬ (q == 0)%Q).
    { intros Hq0. apply Qeq_bool_iff in Hq0. congruence. }
    split; [exact Hq0|]. apply Qeq_bool_iff in E. rewrite E. field. exact Hq0.
  - exists (inject_Z (Z.b2z b)), (a / Z.b2z b). split; [reflexivity|]. by apply Hint.
Qed.

Section AgentFacts.
Context `{Collaborators}.

(** ** The evaluation gate *)

Lemma eval_due_true self : eval_due self = Ok true → eval_conditions self.
Proof.
  unfold eval_due. intros E.
  bind_inv E as ef Hef. apply getattr_Ok in Hef.
  bind_inv E as c1 Hc1.
  destruct c1; [|discriminate E].
  destruct (Z.ltb_spec 0 (step self)) as [Hpos|]; [|discriminate E].
  cbn [andb] in E.
  bind_inv E as nss Hnss. apply getattr_Ok in Hnss.
  bind_inv E as c3 Hc3. destruct c3; [|discriminate E].
  bind_inv E as ef' Hef'. apply getattr_Ok in Hef'. rewrite Hef in Hef'. injection Hef' as <-.
  apply py_mod_is_zero_true in Hc1 as (f & k & Hf & _ & Hk).
  apply py_ge_true in Hc3 as (n & Hn & Hle).
  apply py_pos_true in E as (f' & Hf' & Hlt).
  rewrite Hf in Hf'. injection Hf' as <-.
  exists f, n, k. rewrite Hef, Hnss. simpl. done.
Qed.

Lemma eval_due_int self (f n : Z) :
  cfg self !! "eval_freq" = Some (VInt f) →
  cfg self !! "num_seed_steps" = Some (VInt n) →
  eval_due self = Ok true ↔
  step self mod f = 0 ∧ 0 < step self ∧ n ≤ step self ∧ 0 < f.
Proof.
  intros Hf Hn. unfold eval_due, getattr. rewrite Hf, Hn.
  unfold py_mod_is_zero, py_ge, py_pos. cbn [as_num mbind result_bind].
  destruct (Z.eqb_spec f 0) as [->|Hf0].
  { split; [discriminate | lia]. }
  destruct (Z.eqb_spec (step self mod f) 0) as [Hm|Hm];
    destruct (Z.ltb_spec 0 (step self)); cbn [andb];
    try (split; [discriminate | lia]).
  destruct (Z.leb_spec n (step self)); try (split; [discriminate | lia]).
  destruct (Z.ltb_spec 0 f); split; try discriminate; try lia; done.
Qed.

(** With [eval_freq = 0] the test itself raises: the modulo comes first. *)
Lemma eval_due_zero_freq self :
  cfg self !! "eval_freq" = Some (VInt 0) → eval_due self = Raise ZeroDivisionError.
Proof. intros Hf. unfold eval_due, getattr. by rewrite Hf. Qed.

(** C9.  [self.evaluate] is called only when the step counter is a multiple
    of [eval_freq], is positive, has reached [num_seed_steps], and
    [eval_freq] is positive: an iteration whose test is not true leaves the
    state as it is; the test is never true at step 0, never during the seed
    phase, and never with a zero or negative [eval_freq]; for integer
    attributes the test is exactly the conjunction of the four conditions. *)
Theorem evaluation_only_when_due (t : Train) :
  (eval_due (t_self t) = Ok true → eval_conditions (t_self t)) ∧
  (∀ t', maybe_evaluate t = Ok t' → eval_due (t_self t) ≠ Ok true → t' = t) ∧
  (step (t_self t) = 0 → eval_due (t_self t) ≠ Ok true) ∧
  (∀ nss, cfg (t_self t) !! "num_seed_steps" = Some nss →
          py_lt (step (t_self t)) nss = Ok true → eval_due (t_self t) ≠ Ok true) ∧
  (∀ ef, cfg (t_self t) !! "eval_freq" = Some ef →
         py_pos ef ≠ Ok true → eval_due (t_self t) ≠ Ok true) ∧
  (∀ f n : Z, cfg (t_self t) !! "eval_freq" = Some (VInt f) →
         cfg (t_self t) !! "num_seed_steps" = Some (VInt n) →
         (eval_due (t_self t) = Ok true ↔
          step (t_self t) mod f = 0 ∧ 0 < step (t_self t) ∧ n ≤ step (t_self t) ∧ 0 < f)).
Proof.
  split; [apply eval_due_true|].
  split.
  { intros t' E Hdue. unfold maybe_evaluate in E. bind_inv E as due Hd.
    destruct due; [congruence|]. by injection E as <-. }
  split.
  { intros Hzero Hdue. apply eval_due_true in Hdue as (f & n & k & _ & _ & _ & Hpos & _). lia. }
  split.
  { intros nss Hnss Hlt Hdue.
    apply eval_due_true in Hdue as (f & n & k & _ & Hn & _ & _ & Hle & _).
    apply py_lt_true in Hlt as (q & Hq & Hlt).
    rewrite Hnss in Hn. simpl in Hn. rewrite Hq in Hn. injection Hn as ->.
    apply (Qlt_not_le _ _ Hlt Hle). }
  split.
  { intros ef Hef Hpos Hdue. apply Hpos. clear Hpos.
    unfold eval_due in Hdue. bind_inv Hdue as ef1 Hef1.
    bind_inv Hdue as c1 Hc1. destruct (c1 && (0 <? step (t_self t))); [|discriminate Hdue].
    bind_inv Hdue as nss Hnss. bind_inv Hdue as c3 Hc3. destruct c3; [|discriminate Hdue].
    bind_inv Hdue as ef2 Hef2. apply getattr_Ok in Hef2. rewrite Hef in Hef2.
    by injection Hef2 as <-. }
  intros f n. apply eval_due_int.
Qed.

(** ** One update cycle *)

(** What a successful call of [update_parameters] returns, bundle by
    bundle. *)
Lemma update_parameters_inv self k a c tc tp batch ua ut a' c' tc' tp' aux :
  update_parameters self k a c tc tp batch ua ut = Ok (a', c', tc', tp', aux) →
  (∃ discount backup_entropy,
      cfg self !! "discount" = Some discount ∧
      cfg self !! "backup_entropy" = Some backup_entropy ∧
      c' = fst (loss_update_critic (child k 1) a c tc tp batch discount backup_entropy)) ∧
  (if ut then ∃ tau, cfg self !! "tau" = Some tau ∧ loss_update_target c tc tau = Ok tc'
   else tc' = tc) ∧
  (if ua then
     a' = fst (loss_update_actor (child (child k 0) 1) a c tp batch) ∧
     ∃ learnable_temp, cfg self !! "learnable_temp" = Some learnable_temp ∧
       if py_truthy learnable_temp then
         ∃ target_entropy, cfg self !! "target_entropy" = Some target_entropy ∧
           tp' = fst (loss_update_temp tp
                        (entropy (snd (loss_update_actor (child (child k 0) 1) a c tp batch)))
                        target_entropy)
       else tp' = tp
   else a' = a ∧ tp' = tp).
Proof.
  unfold update_parameters, split2. intros E.
  bind_inv E as discount Hd. apply getattr_Ok in Hd.
  bind_inv E as backup Hb. apply getattr_Ok in Hb.
  destruct (loss_update_critic _ _ _ _ _ _ _ _) as [nc caux] eqn:Hcrit.
  bind_inv E as nt Hnt.
  bind_inv E as r Hr. destruct r as [[[na aaux] ntp] taux].
  injection E as <- <- <- <- <-.
  split.
  { exists discount, backup. rewrite Hcrit. done. }
  split.
  { destruct ut.
    - bind_inv Hnt as tau Htau. apply getattr_Ok in Htau. by exists tau.
    - by injection Hnt as <-. }
  destruct ua.
  - destruct (loss_update_actor _ _ _ _ _) as [na' aaux'] eqn:Hact.
    bind_inv Hr as lt Hlt. apply getattr_Ok in Hlt.
    destruct (py_truthy lt) eqn:Htruthy.
    + bind_inv Hr as te Hte. apply getattr_Ok in Hte.
      destruct (loss_update_temp _ _ _) as [ntp' taux'] eqn:Htemp.
      injection Hr as <- <- <- <-. split; [done|].
      exists lt. split; [done|]. rewrite Htruthy. exists te. split; [done|].
      simpl. by rewrite Htemp.
    + injection Hr as <- <- <- <-. split; [done|].
      exists lt. split; [done|]. by rewrite Htruthy.
  - by injection Hr as <- <- <- <-.
Qed.

(** C7.  In every update cycle the critic is updated; the actor is returned
    as it came unless [update_actor]; the target critic is returned as it
    came unless [update_target]; the temperature is returned as it came
    unless [update_actor] and [learnable_temp] are both true. *)
Theorem update_parameters_frame self k a c tc tp batch ua ut a' c' tc' tp' aux :
  update_parameters self k a c tc tp batch ua ut = Ok (a', c', tc', tp', aux) →
  (∃ discount backup_entropy,
      c' = fst (loss_update_critic (child k 1) a c tc tp batch discount backup_entropy)) ∧
  (ua = false → a' = a) ∧
  (ut = false → tc' = tc) ∧
  (¬ (ua = true ∧ ∃ learnable_temp, cfg self !! "learnable_temp" = Some learnable_temp ∧
                                     py_truthy learnable_temp = true) →
   tp' = tp).
Proof.
  intros E. apply update_parameters_inv in E as ((d & b & _ & _ & Hc) & Ht & Ha).
  split; [by exists d, b|].
  split; [intros ->; by destruct Ha|].
  split; [by intros ->|].
  intros Hno. destruct ua; [|by destruct Ha].
  destruct Ha as (_ & lt & Hlt & Htp).
  destruct (py_truthy lt) eqn:Htruthy; [|done].
  exfalso. apply Hno. split; [done|]. by exists lt.
Qed.

(** C6.  With [update_target] the returned target critic is, parameter by
    parameter, [tau * critic + (1 - tau) * target] of the critic and target
    critic passed in; with [tau = 1] it has the parameters of that critic,
    with [tau = 0] those of the target critic passed in. *)
Theorem update_parameters_polyak self k a c tc tp batch ua a' c' tc' tp' aux :
  update_parameters self k a c tc tp batch ua true = Ok (a', c', tc', tp', aux) →
  ∃ tau t,
    cfg self !! "tau" = Some tau ∧ py_float tau = Ok t ∧
    params tc' = zip_with (λ x y, t * x + (1 - t) * y)%Q (params c) (params tc) ∧
    length (params c) = length (params tc) ∧
    ((t == 1)%Q → Forall2 Qeq (params tc') (params c)) ∧
    ((t == 0)%Q → Forall2 Qeq (params tc') (params tc)).
Proof.
  intros E. apply update_parameters_inv in E as (_ & (tau & Htau & Ht) & _).
  unfold loss_update_target in Ht. bind_inv Ht as t Hfloat.
  destruct (Nat.eqb_spec (length (params c)) (length (params tc))) as [Hlen|];
    [|discriminate Ht].
  injection Ht as <-. exists tau, t. cbn [params].
  split; [done|]. split; [done|]. split; [done|]. split; [done|].
  revert Hlen. generalize (params c) (params tc). clear.
  intros xs. induction xs as [|x xs IH]; intros [|y ys] Hlen; try discriminate Hlen.
  { split; intros _; constructor. }
  injection Hlen as Hlen. destruct (IH ys Hlen) as [IH1 IH0].
  split; intros Ht; cbn [zip_with]; constructor; auto; rewrite Ht; ring.
Qed.

(** C5.  Within one cycle the critic is updated against the actor passed in,
    also when the same cycle updates the actor; the actor update reads the
    same batch; and the caller replaces the four bundles by the four results
    of that one call, computed from the four bundles it held and one sampled
    batch (or keeps all four when no update is due). *)
Theorem update_cycle_consistent (t t' : Train) :
  learn t = Ok t' →
  (t_ac t' = t_ac t ∧ t_events t' = t_events t) ∨
  (∃ batch_size batch ua ut a' c' tc' tp' aux discount backup_entropy,
     cfg (t_self t) !! "batch_size" = Some batch_size ∧
     sample_random_batch (replay_buffer (t_self t)) (child (t_rng_key t) 2) batch_size
       = Ok batch ∧
     update_parameters (t_self t) (child (t_rng_key t) 1)
       (actor (t_ac t)) (critic (t_ac t)) (target_critic (t_ac t)) (temp (t_ac t))
       batch ua ut = Ok (a', c', tc', tp', aux) ∧
     t_ac t' = {| actor := a'; critic := c'; target_critic := tc'; temp := tp' |} ∧
     c' = fst (loss_update_critic (child (child (t_rng_key t) 1) 1)
                 (actor (t_ac t)) (critic (t_ac t)) (target_critic (t_ac t))
                 (temp (t_ac t)) batch discount backup_entropy) ∧
     (ua = true →
      a' = fst (loss_update_actor (child (child (child (t_rng_key t) 1) 0) 1)
                  (actor (t_ac t)) (critic (t_ac t)) (temp (t_ac t)) batch)) ∧
     (ua = false → a' = actor (t_ac t))).
Proof.
  unfold learn. intros E.
  bind_inv E as nss Hnss. bind_inv E as warm Hwarm.
  destruct warm; [|injection E as <-; by left].
  right. unfold split3 in E.
  bind_inv E as auf Hauf. bind_inv E as ua Hua.
  bind_inv E as tuf Htuf. bind_inv E as ut Hut.
  bind_inv E as bs Hbs. apply getattr_Ok in Hbs.
  bind_inv E as batch Hbatch.
  bind_inv E as r Hr. destruct r as [[[[a' c'] tc'] tp'] aux].
  bind_inv E as logs Hlogs. injection E as <-. cbn [t_ac].
  pose proof (update_parameters_inv _ _ _ _ _ _ _ _ _ _ _ _ _ _ Hr)
    as ((d & b & _ & _ & Hc) & _ & Ha).
  exists bs, batch, ua, ut, a', c', tc', tp', aux, d, b.
  split; [done|]. split; [done|]. split; [done|]. split; [done|]. split; [done|].
  split; intros ->; by destruct Ha.
Qed.

(** ** The mask *)

Lemma compute_mask_lookup dones ep_lens mel m :
  compute_mask dones ep_lens mel = Ok m →
  length dones = length ep_lens →
  length m = length dones ∧
  ∀ (i : nat) d l, dones !! i = Some d → ep_lens !! i = Some l →
    m !! i = Some (negb d || np_eq_scalar l mel).
Proof.
  unfold compute_mask, broadcast. intros E Hlen.
  bind_inv E as p Hp. injection E as <-.
  rewrite !length_map in Hp. rewrite Hlen, Nat.eqb_refl in Hp. injection Hp as <-.
  split.
  { rewrite length_map, length_zip, !length_map. lia. }
  intros i d l Hd Hl.
  rewrite list_lookup_fmap.
  erewrite (proj2 (lookup_zip_with_Some pair _ _ i (negb d, np_eq_scalar l mel))).
  { reflexivity. }
  exists (negb d), (np_eq_scalar l mel). split; [done|].
  rewrite !list_lookup_fmap, Hd, Hl. done.
Qed.

(** ** The phases of one iteration *)

Lemma labels_app (a b : list Event) : labels (a ++ b) = (labels a ++ labels b)%list.
Proof. apply omap_app. Qed.

Lemma env_step_action self w k obs st act seed :
  step_action (_env_step self w k obs st act seed)
  = _sample_action (child k 1) act obs seed.
Proof.
  unfold _env_step, split3, step_action.
  destruct (jax_env self).
  - by destruct (env_step _ _ _) as [[[[? ?] ?] ?] ?].
  - by destruct (gym_step _ _) as [[[[? ?] ?] ?] ?].
Qed.

Lemma maybe_evaluate_inv t t' :
  maybe_evaluate t = Ok t' →
  t_self t' = t_self t ∧ t_ac t' = t_ac t ∧ t_ep_lens t' = t_ep_lens t ∧
  t_dones t' = t_dones t ∧ t_env_obs t' = t_env_obs t ∧
  t_env_states t' = t_env_states t ∧
  ∃ ev, t_events t' = (t_events t ++ ev)%list ∧ labels ev = [].
Proof.
  unfold maybe_evaluate. intros E. bind_inv E as due Hdue.
  destruct due.
  - unfold split2 in E. bind_inv E as r Hr. destruct r as [ev w].
    injection E as <-. cbn. repeat (split; [done|]).
    eexists. split; [done|].
    unfold evaluate in Hr. bind_inv Hr as nee Hnee. bind_inv Hr as n Hn.
    destruct n as [z|q]; [|discriminate Hr].
    destruct (split _ _) as [|k0 [|k1 ks]]; try discriminate Hr.
    bind_inv Hr as es Hes.
    destruct (rollout _ _ _ _) as [[[rets lens] ends] w'].
    bind_inv Hr as rets' Hrets. bind_inv Hr as lens' Hlens.
    by injection Hr as <- <-.
  - injection E as <-. repeat (split; [done|]). exists []. by rewrite app_nil_r.
Qed.

Lemma flush_episodes_inv t t' :
  flush_episodes t = Ok t' →
  t_self t' = t_self t ∧ t_ac t' = t_ac t ∧ t_rng_key t' = t_rng_key t ∧
  t_dones t' = t_dones t ∧ t_env_obs t' = t_env_obs t ∧
  t_env_states t' = t_env_states t ∧
  ∃ ev, t_events t' = (t_events t ++ ev)%list ∧ labels ev = [].
Proof.
  unfold flush_episodes. intros E. destruct (np_any (t_dones t)).
  - bind_inv E as r1 Hr1. bind_inv E as r2 Hr2. bind_inv E as r3 Hr3.
    bind_inv E as r4 Hr4. injection E as <-. cbn. repeat (split; [done|]).
    eexists. split; done.
  - injection E as <-. repeat (split; [done|]). exists []. by rewrite app_nil_r.
Qed.

Lemma interact_inv t t' :
  interact t = Ok t' →
  ∃ nss seed mel ts,
    cfg (t_self t) !! "num_seed_steps" = Some nss ∧
    py_lt (step (t_self t)) nss = Ok seed ∧
    cfg (t_self t) !! "max_episode_length" = Some mel ∧
    t_events t' =
      (t_events t ++
       [EnvStep (step (t_self t)) (child (t_rng_key t) 1) seed
          (_sample_action (child (child (t_rng_key t) 1) 1) (actor (t_ac t))
             (t_env_obs t) seed);
        Store ts])%list ∧
    action ts = _sample_action (child (child (t_rng_key t) 1) 1) (actor (t_ac t))
                  (t_env_obs t) seed ∧
    compute_mask (t_dones t') (t_ep_lens t') mel = Ok (mask ts) ∧
    t_ep_lens t' = map (λ l, l + 1) (t_ep_lens t) ∧
    store (replay_buffer (t_self t)) ts = Ok (replay_buffer (t_self t')) ∧
    cfg (t_self t') = cfg (t_self t) ∧
    jax_env (t_self t') = jax_env (t_self t) ∧
    step (t_self t') = step (t_self t) + 1 ∧
    t_ac t' = t_ac t.
Proof.
  unfold interact, split2. intros E.
  bind_inv E as st Hst. bind_inv E as nss Hnss. apply getattr_Ok in Hnss.
  bind_inv E as seed Hseed.
  pose proof (env_step_action (t_self t) (t_world t) (child (t_rng_key t) 1)
                (t_env_obs t) st (actor (t_ac t)) seed) as Hact.
  destruct (_env_step _ _ _ _ _ _ _) as [[[[[[a o'] st'] rw] dn] inf] w'].
  unfold step_action in Hact. cbn [fst] in Hact. subst a.
  bind_inv E as rets Hrets.
  bind_inv E as mel Hmel. apply getattr_Ok in Hmel.
  bind_inv E as m Hm. bind_inv E as buf Hbuf. injection E as <-. cbn.
  exists nss, seed, mel. eexists. repeat (split; [done|]). done.
Qed.

Lemma log_update_labels self aux ua logs :
  log_update self aux ua = Ok logs → labels logs = [].
Proof.
  unfold log_update. intros E. bind_inv E as lf Hlf. bind_inv E as c1 Hc1.
  destruct c1; [|by injection E as <-].
  bind_inv E as lf' Hlf'. bind_inv E as c2 Hc2.
  destruct c2; [|by injection E as <-].
  bind_inv E as al Hal. injection E as <-.
  assert (Hnone : labels al = []).
  { destruct ua; [|by injection Hal as <-].
    bind_inv Hal as te Hte. bind_inv Hal as q Hq. bind_inv Hal as lt Hlt.
    injection Hal as <-. by destruct (py_truthy lt). }
  change (labels (al ++ [LoggerLog (step self); LoggerReset]) = []).
  by rewrite labels_app, Hnone.
Qed.

Lemma learn_inv t t' :
  learn t = Ok t' →
  t_self t' = t_self t ∧ t_dones t' = t_dones t ∧ t_ep_lens t' = t_ep_lens t ∧
  ∃ nss warm,
    cfg (t_self t) !! "num_seed_steps" = Some nss ∧
    py_ge (step (t_self t)) nss = Ok warm ∧
    if warm then
      ∃ auf tuf ua ut logs,
        cfg (t_self t) !! "actor_update_freq" = Some auf ∧
        py_mod_is_zero (step (t_self t)) auf = Ok ua ∧
        cfg (t_self t) !! "target_update_freq" = Some tuf ∧
        py_mod_is_zero (step (t_self t)) tuf = Ok ut ∧
        t_events t' =
          (t_events t ++
           UpdateParameters (step (t_self t)) (child (t_rng_key t) 1) ua ut :: logs)%list ∧
        labels logs = []
    else t' = t.
Proof.
  unfold learn. intros E.
  bind_inv E as nss Hnss. apply getattr_Ok in Hnss. bind_inv E as warm Hwarm.
  destruct warm.
  - unfold split3 in E.
    bind_inv E as auf Hauf. apply getattr_Ok in Hauf. bind_inv E as ua Hua.
    bind_inv E as tuf Htuf. apply getattr_Ok in Htuf. bind_inv E as ut Hut.
    bind_inv E as bs Hbs. bind_inv E as batch Hbatch.
    bind_inv E as r Hr. destruct r as [[[[a' c'] tc'] tp'] aux].
    bind_inv E as logs Hlogs. injection E as <-. cbn.
    repeat (split; [done|]). exists nss, true. repeat (split; [done|]).
    exists auf, tuf, ua, ut, logs. repeat (split; [done|]).
    by eapply log_update_labels.
  - injection E as <-. repeat (split; [done|]). by exists nss, false.
Qed.

(** One iteration of the loop: the events it adds and what it leaves. *)
Lemma train_iter_inv t t' :
  train_iter t = Ok t' →
  cfg (t_self t') = cfg (t_self t) ∧
  jax_env (t_self t') = jax_env (t_self t) ∧
  step (t_self t') = step (t_self t) + 1 ∧
  ∃ nss seed warm mel quiet key obs ts upd,
    cfg (t_self t) !! "num_seed_steps" = Some nss ∧
    py_lt (step (t_self t)) nss = Ok seed ∧
    py_ge (step (t_self t) + 1) nss = Ok warm ∧
    cfg (t_self t) !! "max_episode_length" = Some mel ∧
    compute_mask (t_dones t') (t_ep_lens t') mel = Ok (mask ts) ∧
    labels quiet = [] ∧
    t_events t' =
      (t_events t ++ quiet ++
       [EnvStep (step (t_self t)) key seed
          (_sample_action (child key 1) (actor (t_ac t)) obs seed);
        Store ts] ++ upd)%list ∧
    if warm then
      ∃ auf tuf ua ut k logs,
        cfg (t_self t) !! "actor_update_freq" = Some auf ∧
        py_mod_is_zero (step (t_self t) + 1) auf = Ok ua ∧
        cfg (t_self t) !! "target_update_freq" = Some tuf ∧
        py_mod_is_zero (step (t_self t) + 1) tuf = Ok ut ∧
        upd = UpdateParameters (step (t_self t) + 1) k ua ut :: logs ∧
        labels logs = []
    else upd = [].
Proof.
  unfold train_iter. intros E.
  bind_inv E as t1 H1. bind_inv E as t2 H2. bind_inv E as t3 H3.
  apply maybe_evaluate_inv in H1 as (Hs1 & Hac1 & _ & _ & _ & _ & ev1 & He1 & Hl1).
  apply flush_episodes_inv in H2 as (Hs2 & Hac2 & _ & _ & _ & _ & ev2 & He2 & Hl2).
  apply interact_inv in H3
    as (nss & seed & mel & ts & Hnss & Hseed & Hmel & He3 & _ & Hmask & _ & _
        & Hc & Hj & Hst & _).
  apply learn_inv in E as (Hs4 & Hd4 & Hl4 & nss' & warm & Hnss' & Hwarm & Hupd).
  rewrite Hs2, Hs1 in *. rewrite Hac2, Hac1 in *. rewrite Hs4, Hd4, Hl4 in *.
  rewrite Hc in Hnss'. rewrite Hnss in Hnss'. injection Hnss' as <-.
  rewrite Hst in Hwarm.
  repeat (split; [done|]).
  exists nss, seed, warm, mel, (ev1 ++ ev2)%list, (child (t_rng_key t2) 1), (t_env_obs t2), ts.
  assert (Hquiet : labels (ev1 ++ ev2) = []) by by rewrite labels_app, Hl1, Hl2.
  destruct warm.
  - destruct Hupd as (auf & tuf & ua & ut & logs & Hauf & Hua & Htuf & Hut & He4 & Hlogs).
    eexists. repeat (split; [done|]).
    split.
    + rewrite He4, He3, He2, He1. rewrite <- !app_assoc. reflexivity.
    + exists auf, tuf, ua, ut. rewrite Hc, Hst in *. eexists _, logs. done.
  - exists []. subst t3. repeat (split; [done|]).
    split; [|done].
    rewrite He3, He2, He1. by rewrite <- !app_assoc.
Qed.

(** C4.  In every iteration of the loop exactly one transition is stored,
    and its mask is [(~dones) | (ep_lens == max_episode_length)] of the
    [dones] returned by the step and of the episode lengths counting that
    step: per environment, 0 when done before [max_episode_length], 1 when
    done at [max_episode_length], 1 when not done. *)
Theorem stored_mask (t t' : Train) :
  train_iter t = Ok t' →
  ∃ mel pre ts post,
    cfg (t_self t) !! "max_episode_length" = Some mel ∧
    t_events t' = (t_events t ++ pre ++ Store ts :: post)%list ∧
    stored pre = 0 ∧ stored post = 0 ∧
    compute_mask (t_dones t') (t_ep_lens t') mel = Ok (mask ts) ∧
    (length (t_dones t') = length (t_ep_lens t') →
     ∀ (i : nat) d l, t_dones t' !! i = Some d → t_ep_lens t' !! i = Some l →
       mask ts !! i = Some (negb d || np_eq_scalar l mel) ∧
       ∀ M, mel = VInt M →
         (d = true → l < M → mask ts !! i = Some false) ∧
         (d = true → l = M → mask ts !! i = Some true) ∧
         (d = false → mask ts !! i = Some true)).
Proof.
  intros E. apply train_iter_inv in E
    as (_ & _ & _ & nss & seed & warm & mel & quiet & key & obs & ts & upd
        & _ & _ & _ & Hmel & Hmask & Hquiet & Hev & Hupd).
  exists mel, (quiet ++ [EnvStep (step (t_self t)) key seed
                    (_sample_action (child key 1) (actor (t_ac t)) obs seed)])%list, ts, upd.
  split; [done|]. split; [by rewrite Hev, <- !app_assoc|].
  split; [unfold stored; by rewrite labels_app, Hquiet|].
  split.
  { destruct warm; [|by subst upd].
    destruct Hupd as (? & ? & ? & ? & ? & logs & _ & _ & _ & _ & -> & Hlogs).
    unfold stored. change (labels (UpdateParameters ?s ?k ?a ?b :: logs))
      with (LUpdate s a b :: labels logs). by rewrite Hlogs. }
  split; [done|].
  intros Hlen i d l Hd Hl.
  destruct (compute_mask_lookup _ _ _ _ Hmask Hlen) as [_ Hlook].
  rewrite (Hlook i d l Hd Hl). split; [done|].
  intros M ->. cbn [np_eq_scalar].
  split; [|split].
  - intros -> Hlt. destruct (Z.eqb_spec l M); [lia|done].
  - intros -> ->. by rewrite Z.eqb_refl.
  - by intros ->.
Qed.

(** ** The loop *)

Lemma train_loop_invariant (I : Train → Prop) :
  (∀ t t', I t → loop_cond (t_self t) = Ok true → train_iter t = Ok t' → I t') →
  ∀ fuel t t', I t → train_loop fuel t = Ok t' → I t'.
Proof.
  intros Hstep fuel. induction fuel as [|fuel IH]; intros t t' Ht E; cbn [train_loop] in E.
  - bind_inv E as go Hgo. destruct go; by injection E as <-.
  - bind_inv E as go Hgo. destruct go; [|by injection E as <-].
    bind_inv E as t1 Ht1. eapply IH; [|exact E]. by eapply Hstep.
Qed.

(** What [train] sets up before the loop. *)
Lemma train_inv self w k ac t' :
  train self w k ac = Ok t' →
  ∃ nts t0,
    cfg self !! "num_train_steps" = Some nts ∧
    train_loop (iterations_left (step self) nts) t0 = Ok t' ∧
    t_self t0 = self ∧ t_ac t0 = ac ∧ t_events t0 = [] ∧
    t_env_states t0 = (if jax_env self then Unbound else Bound None).
Proof.
  unfold train, split2. intros E.
  bind_inv E as ne Hne. bind_inv E as l1 Hl1. bind_inv E as l2 Hl2. bind_inv E as l3 Hl3.
  destruct (jax_env self) eqn:Hjax.
  - destruct (env_reset _) as [o s]. bind_inv E as nts Hnts. apply getattr_Ok in Hnts.
    exists nts. eexists. split; [done|]. split; [exact E|]. by rewrite ?Hjax.
  - destruct (gym_reset _) as [o w']. bind_inv E as nts Hnts. apply getattr_Ok in Hnts.
    exists nts. eexists. split; [done|]. split; [exact E|]. by rewrite ?Hjax.
Qed.

(** ** The seed phase *)










(** ** The schedule of a whole run *)

Lemma py_lt_int a z : py_lt a (VInt z) = Ok (a <? z).
Proof. reflexivity. Qed.

Lemma py_ge_int a z : py_ge a (VInt z) = Ok (z <=? a).
Proof. reflexivity. Qed.

Lemma py_mod_is_zero_int a z b :
  py_mod_is_zero a (VInt z) = Ok b → b = (a mod z =? 0).
Proof.
  unfold py_mod_is_zero. cbn [as_num mbind result_bind].
  destruct (z =? 0); [discriminate|]. by intros [= <-].
Qed.

(** The labels of one iteration, for integer attributes. *)
Lemma train_iter_labels (nss auf tuf : Z) t t' :
  cfg (t_self t) !! "num_seed_steps" = Some (VInt nss) →
  cfg (t_self t) !! "actor_update_freq" = Some (VInt auf) →
  cfg (t_self t) !! "target_update_freq" = Some (VInt tuf) →
  train_iter t = Ok t' →
  labels (t_events t') =
    (labels (t_events t) ++ iteration_labels nss auf tuf (step (t_self t)))%list.
Proof.
  intros Hnss Hauf Htuf E.
  apply train_iter_inv in E
    as (_ & _ & _ & nss' & seed & warm & mel & quiet & key & obs & ts & upd
        & Hnss' & Hseed & Hwarm & _ & _ & Hquiet & Hev & Hupd).
  rewrite Hnss in Hnss'. injection Hnss' as <-.
  rewrite py_lt_int in Hseed. injection Hseed as <-.
  rewrite py_ge_int in Hwarm. injection Hwarm as <-.
  rewrite Hev, !labels_app, Hquiet. unfold iteration_labels.
  change (labels [EnvStep ?s ?k ?b ?a; Store ts]) with [LStep s b; LStore].
  cbn [app]. do 3 f_equal.
  destruct (nss <=? step (t_self t) + 1); [|by subst upd].
  destruct Hupd as (auf' & tuf' & ua & ut & ku & logs & Hauf' & Hua & Htuf' & Hut & -> & Hlogs).
  rewrite Hauf in Hauf'. injection Hauf' as <-.
  rewrite Htuf in Htuf'. injection Htuf' as <-.
  apply py_mod_is_zero_int in Hua as ->. apply py_mod_is_zero_int in Hut as ->.
  change (labels (UpdateParameters ?s ?k ?a ?b :: logs))
    with (LUpdate s a b :: labels logs). by rewrite Hlogs.
Qed.

(** The loop runs until the step counter reaches [num_train_steps], and its
    labels are those of the iterations in between. *)
Lemma train_loop_labels (N nss auf tuf : Z) cfg0 :
  cfg0 !! "num_train_steps" = Some (VInt N) →
  cfg0 !! "num_seed_steps" = Some (VInt nss) →
  cfg0 !! "actor_update_freq" = Some (VInt auf) →
  cfg0 !! "target_update_freq" = Some (VInt tuf) →
  ∀ fuel t t',
    cfg (t_self t) = cfg0 →
    fuel = Z.to_nat (N - step (t_self t)) →
    train_loop fuel t = Ok t' →
    labels (t_events t') =
      (labels (t_events t) ++ run_labels nss auf tuf (step (t_self t)) fuel)%list ∧
    step (t_self t') = Z.max (step (t_self t)) N.
Proof.
  intros HN Hnss Hauf Htuf fuel.
  induction fuel as [|fuel IH]; intros t t' Hc Hfuel E; cbn [train_loop] in E;
    unfold loop_cond, getattr in E; rewrite Hc, HN in E;
    cbn [mbind result_bind] in E; rewrite py_lt_int in E; cbn [mbind result_bind] in E.
  - destruct (Z.ltb_spec (step (t_self t)) N); [lia|]. injection E as <-.
    cbn [run_labels]. rewrite app_nil_r. split; [done|lia].
  - destruct (Z.ltb_spec (step (t_self t)) N); [|lia].
    bind_inv E as t1 Ht1.
    pose proof (train_iter_inv _ _ Ht1) as (Hc1 & _ & Hst & _).
    pose proof Ht1 as Hl1.
    apply (train_iter_labels nss auf tuf) in Hl1; [|by rewrite Hc..].
    apply IH in E as [Hl Hs']; [|by rewrite Hc1|lia].
    rewrite Hl, Hl1, Hs', Hst. cbn [run_labels]. rewrite <- app_assoc.
    split; [done|lia].
Qed.

Lemma train_labels (N nss auf tuf : Z) self w k ac t' :
  cfg self !! "num_train_steps" = Some (VInt N) →
  cfg self !! "num_seed_steps" = Some (VInt nss) →
  cfg self !! "actor_update_freq" = Some (VInt auf) →
  cfg self !! "target_update_freq" = Some (VInt tuf) →
  train self w k ac = Ok t' →
  labels (t_events t') =
    run_labels nss auf tuf (step self) (Z.to_nat (N - step self)) ∧
  step (t_self t') = Z.max (step self) N.
Proof.
  intros HN Hnss Hauf Htuf E.
  apply train_inv in E as (nts & t0 & HN' & E & Hself & _ & Hev & _).
  rewrite HN in HN'. injection HN' as <-. cbn [iterations_left] in E.
  apply (train_loop_labels N nss auf tuf (cfg self)) in E; try done;
    [|by rewrite Hself..].
  by rewrite Hself, Hev in E.
Qed.

(** The loop of [train] is left only when its test fails: the fuel given
    to [train_loop] is never what stops it. *)
Lemma iterations_left_zero a v go :
  py_lt a v = Ok go → iterations_left a v = 0%nat → go = false.
Proof.
  destruct v as [z|q|b|]; cbn; intros E Hz; try discriminate E; injection E as <-.
  - destruct (Z.ltb_spec a z); [lia|done].
  - apply negb_false_iff, Qle_bool_iff.
    apply Qle_trans with (inject_Z (Qceiling q)); [apply Qle_ceiling|].
    rewrite <- Zle_Qle. lia.
  - destruct (Z.ltb_spec a (Z.b2z b)); [lia|done].
Qed.

Lemma iterations_left_succ a v :
  py_lt a v = Ok true → iterations_left a v = S (iterations_left (a + 1) v).
Proof.
  destruct v as [z|q|b|]; cbn; intros E; try discriminate E; injection E as E.
  - apply Z.ltb_lt in E. lia.
  - apply negb_true_iff in E.
    assert (Hlt : (inject_Z a < q)%Q).
    { apply Qnot_le_lt. intros Hle. apply Qle_bool_iff in Hle. congruence. }
    assert (a < Qceiling q); [|lia].
    rewrite Zlt_Qlt. eapply Qlt_le_trans; [exact Hlt|apply Qle_ceiling].
  - apply Z.ltb_lt in E. lia.
Qed.

Lemma train_loop_exits nts fuel t t' :
  cfg (t_self t) !! "num_train_steps" = Some nts →
  (iterations_left (step (t_self t)) nts ≤ fuel)%nat →
  train_loop fuel t = Ok t' →
  loop_cond (t_self t') = Ok false.
Proof.
  revert t. induction fuel as [|fuel IH]; intros t Hnts Hfuel E; cbn [train_loop] in E.
  - bind_inv E as go Hgo. pose proof Hgo as Hgo'.
    unfold loop_cond, getattr in Hgo'. rewrite Hnts in Hgo'. cbn [mbind result_bind] in Hgo'.
    apply iterations_left_zero in Hgo'; [|lia]. subst go. by injection E as <-.
  - bind_inv E as go Hgo. destruct go; [|by injection E as <-].
    bind_inv E as t1 Ht1.
    pose proof (train_iter_inv _ _ Ht1) as (Hc1 & _ & Hst & _).
    unfold loop_cond, getattr in Hgo. rewrite Hnts in Hgo. cbn [mbind result_bind] in Hgo.
    apply iterations_left_succ in Hgo.
    apply (IH t1); [by rewrite Hc1| rewrite Hst; lia | exact E].
Qed.

Lemma train_exits self w k ac t' :
  train self w k ac = Ok t' → loop_cond (t_self t') = Ok false.
Proof.
  intros E. apply train_inv in E as (nts & t0 & Hnts & E & Hself & _).
  apply (train_loop_exits nts) in E; [done|by rewrite Hself|by rewrite Hself].
Qed.

(** ** Construction *)

Lemma SACConfig_inv kwargs cfg0 :
  SACConfig kwargs = Ok cfg0 →
  cfg0 = kwargs ∪ list_to_map SACConfig_defaults ∧
  dom kwargs ⊆ list_to_set SACConfig_fields.
Proof.
  unfold SACConfig. intros E.
  destruct (decide (dom kwargs ⊆ _)) as [Hsub|]; [|discriminate E].
  destruct (decide (_ ⊆ dom kwargs)); [|discriminate E].
  by injection E as <-.
Qed.

Lemma SAC_init_inv jax act_dim c self :
  SAC_init jax act_dim c = Ok self →
  step self = 0 ∧ jax_env self = jax ∧
  ∃ cfg0 capacity te,
    match c with CfgDict d => SACConfig d | CfgObj o => Ok o end = Ok cfg0 ∧
    cfg0 !! "replay_buffer_capacity" = Some capacity ∧
    GenericBuffer_new capacity 1 = Ok (replay_buffer self) ∧
    cfg0 !! "target_entropy" = Some te ∧
    cfg self = match te with
               | VNone => <["target_entropy" := VFloat (- act_dim # 2)]> cfg0
               | _ => cfg0
               end.
Proof.
  unfold SAC_init. intros E.
  bind_inv E as cfg0 Hcfg. bind_inv E as cap Hcap. apply getattr_Ok in Hcap.
  bind_inv E as buf Hbuf. bind_inv E as te Hte. apply getattr_Ok in Hte.
  injection E as <-. cbn. repeat (split; [done|]). by exists cfg0, cap, te.
Qed.

Lemma SAC_init_lookup jax act_dim d self name :
  SAC_init jax act_dim (CfgDict d) = Ok self →
  name ≠ "target_entropy" →
  cfg self !! name = (d ∪ list_to_map SACConfig_defaults) !! name.
Proof.
  intros E Hne. apply SAC_init_inv in E as (_ & _ & cfg0 & cap & te & Hcfg & _ & _ & _ & ->).
  apply SACConfig_inv in Hcfg as [-> _].
  destruct te; try done. by rewrite lookup_insert_ne.
Qed.

(** ** The run of the scenario goes through *)

Lemma scenario_eval_not_due self :
  scenario_cfg (cfg self) → 0 ≤ step self ≤ 30 → eval_due self = Ok false.
Proof.
  intros Hc Hs. unfold eval_due, getattr. rewrite (sc_eval_freq _ Hc).
  unfold py_mod_is_zero. cbn [mbind result_bind as_num Z.eqb].
  destruct (Z.eqb_spec (step self mod 5000) 0) as [Hm|]; [|done].
  rewrite Z.mod_small in Hm by lia. rewrite Hm. done.
Qed.

Lemma scenario_flush t :
  scenario_state t →
  ∃ t', flush_episodes t = Ok t' ∧ scenario_state t' ∧ t_self t' = t_self t.
Proof.
  intros Hs. unfold flush_episodes.
  destruct (np_any (t_dones t)); [|by exists t].
  unfold np_select, np_assign.
  rewrite (ss_ep_lens _ Hs), (ss_ep_rets _ Hs), (ss_dones _ Hs).
  cbn [Nat.eqb mbind result_bind].
  eexists. split; [reflexivity|]. split; [|done].
  destruct Hs. constructor; cbn; try done.
  - rewrite length_zip_with. lia.
  - rewrite length_zip_with. lia.
Qed.

Lemma ring_push_ok r x :
  ring_ok r → ring_ok (ring_push 100 r x) ∧ (0 < fill (ring_push 100 r x))%nat.
Proof.
  intros (Hlen & Hcur & Hzero & Hsome). unfold ring_push, ring_ok. cbn [slots cursor fill].
  split; [|lia]. rewrite length_insert. split; [done|].
  split; [apply Nat.mod_upper_bound; lia|]. split; [lia|]. intros _.
  destruct (decide (cursor r = 0%nat)) as [Hc|Hc].
  - rewrite Hc, list_lookup_insert_eq by lia. by eexists.
  - rewrite list_lookup_insert_ne by done. apply Hsome.
    destruct (fill r); [by specialize (Hzero eq_refl)|lia].
Qed.

Lemma scenario_interact t :
  single_env_world → scenario_state t → step (t_self t) < 30 →
  ∃ t', interact t = Ok t' ∧ scenario_state t' ∧
        step (t_self t') = step (t_self t) + 1 ∧
        ∃ r, rings (replay_buffer (t_self t')) = [r] ∧ (0 < fill r)%nat.
Proof.
  intros (Hreset & Hstep & Hseed & Hactor & Hcritic) Hs Hlt.
  pose proof (ss_cfg _ Hs) as Hc.
  destruct (ss_env_states _ Hs) as [st Hst].
  destruct (sc_max_episode_length _ Hc) as [mel Hmel].
  destruct (ss_ring _ Hs) as (r & Hr & Hrok).
  pose proof (ss_env_obs _ Hs) as Heo. pose proof (ss_ep_lens _ Hs) as Hel.
  unfold interact, split2, getattr. rewrite Hst, (sc_num_seed_steps _ Hc), Hmel.
  cbn [mbind result_bind py_lt as_num].
  unfold _env_step, split3. rewrite (ss_gym _ Hs).
  set (a := _sample_action _ _ _ _).
  assert (Ha : length a = 1%nat).
  { subst a. unfold _sample_action. destruct (_ <? _); [apply Hseed|apply Hactor]. }
  pose proof (Hstep (t_world t) a) as Hshape.
  destruct (gym_step (t_world t) a) as [[[[o rw] dn] inf] w'].
  destruct Hshape as (Ho & Hrw & Hdn).
  unfold np_iadd. rewrite (ss_ep_rets _ Hs), Hrw. cbn [Nat.eqb mbind result_bind].
  unfold compute_mask, broadcast. rewrite !length_map, Hdn, (ss_ep_lens _ Hs).
  cbn [Nat.eqb mbind result_bind].
  unfold store, rows_of. cbn [mask env_obs action reward next_env_obs].
  rewrite length_map, length_zip, !length_map, Hdn, (ss_ep_lens _ Hs), (ss_env_obs _ Hs),
    Ha, Hrw, Ho.
  cbn [Nat.min Nat.eqb andb mbind result_bind].
  rewrite length_zip_with, !length_zip, (ss_env_obs _ Hs), Ha, Hrw, Ho, length_map,
    length_zip, !length_map, Hdn, (ss_ep_lens _ Hs), Hr.
  cbn [Nat.min length Nat.eqb].
  eexists. split; [reflexivity|].
  set (rows := zip_with _ _ o).
  assert (Hrows : ∃ x, rows = [x]).
  { subst rows. destruct (t_env_obs t) as [|e0 [|]]; try discriminate Heo.
    destruct a as [|a0 [|]]; try discriminate Ha.
    destruct rw as [|r0 [|]]; try discriminate Hrw.
    destruct dn as [|d0 [|]]; try discriminate Hdn.
    destruct o as [|o0 [|]]; try discriminate Ho.
    destruct (t_ep_lens t) as [|l0 [|]]; try discriminate Hel.
    cbn. by eexists. }
  destruct Hrows as [x Hx]. rewrite Hx. cbn [zip_with].
  destruct (ring_push_ok r x Hrok) as [Hrok' Hfill].
  rewrite (ss_capacity _ Hs).
  split; [|split; [done|by eexists]].
  destruct Hs. constructor; cbn; try done.
  - lia.
  - by rewrite length_map.
  - rewrite length_zip_with. lia.
  - by eexists.
  - by eexists.
Qed.

Lemma scenario_update_parameters self k a c tc tp batch ua :
  single_env_world → scenario_cfg (cfg self) →
  length (params c) = length (params tc) →
  ∃ a' c' tc' tp' aux,
    update_parameters self k a c tc tp batch ua true = Ok (a', c', tc', tp', aux) ∧
    length (params c') = length (params tc').
Proof.
  intros (_ & _ & _ & _ & Hcritic) Hc Hlen.
  destruct (sc_discount _ Hc) as [d Hd]. destruct (sc_backup_entropy _ Hc) as [b Hb].
  destruct (sc_target_entropy _ Hc) as [te Hte].
  unfold update_parameters, split2, getattr.
  rewrite Hd, Hb, (sc_tau _ Hc). cbn [mbind result_bind].
  pose proof (Hcritic (child k 1) a c tc tp batch d b) as Hcl.
  destruct (loss_update_critic _ _ _ _ _ _ _ _) as [nc caux]. cbn [fst] in Hcl.
  unfold loss_update_target. cbn [py_float as_num mbind result_bind].
  rewrite Hlen, Nat.eqb_refl. cbn [mbind result_bind].
  destruct ua.
  - destruct (loss_update_actor _ _ _ _ _) as [na aaux].
    rewrite (sc_learnable_temp _ Hc), Hte. cbn [mbind result_bind py_truthy].
    destruct (loss_update_temp _ _ _) as [ntp taux]. cbn [mbind result_bind].
    do 5 eexists. split; [reflexivity|]. cbn [params]. rewrite length_zip_with. lia.
  - cbn [mbind result_bind].
    do 5 eexists. split; [reflexivity|]. cbn [params]. rewrite length_zip_with. lia.
Qed.

Lemma scenario_learn t :
  single_env_world → scenario_state t → 1 ≤ step (t_self t) →
  (∃ r, rings (replay_buffer (t_self t)) = [r] ∧ (0 < fill r)%nat) →
  ∃ t', learn t = Ok t' ∧ scenario_state t' ∧ t_self t' = t_self t.
Proof.
  intros Hw Hs Hstep (r & Hr & Hfill).
  pose proof (ss_cfg _ Hs) as Hc. pose proof (ss_step _ Hs) as Hrange.
  unfold learn, getattr. rewrite (sc_num_seed_steps _ Hc).
  cbn [mbind result_bind py_ge as_num].
  destruct (20 <=? step (t_self t)) eqn:Hwarm; [|by exists t].
  apply Z.leb_le in Hwarm. unfold split3.
  rewrite (sc_actor_update_freq _ Hc), (sc_target_update_freq _ Hc), (sc_batch_size _ Hc).
  unfold py_mod_is_zero. cbn [mbind result_bind as_num Z.eqb].
  rewrite Z.mod_1_r. cbn [Z.eqb].
  assert (Hbatch : ∃ batch, sample_random_batch (replay_buffer (t_self t))
                              (child (t_rng_key t) 2) (VInt 10) = Ok batch).
  { unfold sample_random_batch. cbn [mbind result_bind as_num Z.ltb Z.compare].
    unfold valid_rows. rewrite Hr. cbn [map concat]. rewrite app_nil_r.
    destruct (ss_ring _ Hs) as (r' & Hr' & (_ & _ & _ & Hsome)).
    rewrite Hr in Hr'. injection Hr' as <-. specialize (Hsome Hfill).
    destruct (fill r) as [|n]; [lia|].
    destruct (slots r) as [|[x|] sl]; cbn in Hsome; try by destruct Hsome.
    cbn [take omap list_omap id]. by eexists. }
  destruct Hbatch as [batch ->]. cbn [mbind result_bind].
  destruct (scenario_update_parameters (t_self t) (child (t_rng_key t) 1)
              (actor (t_ac t)) (critic (t_ac t)) (target_critic (t_ac t)) (temp (t_ac t))
              batch (step (t_self t) mod 2 =? 0) Hw Hc (ss_params _ Hs))
    as (a' & c' & tc' & tp' & aux & -> & Hlen).
  cbn [mbind result_bind].
  unfold log_update, getattr. rewrite (sc_log_freq _ Hc).
  unfold py_mod_is_zero. cbn [mbind result_bind py_pos as_num Z.ltb Z.compare Z.eqb].
  destruct (Z.eqb_spec (step (t_self t) mod 1000) 0) as [Hm|].
  { rewrite Z.mod_small in Hm by lia. lia. }
  cbn [mbind result_bind].
  eexists. split; [reflexivity|]. split; [|done].
  destruct Hs. by constructor.
Qed.

(** One iteration of the scenario goes through. *)
Lemma scenario_train_iter t :
  single_env_world → scenario_state t → step (t_self t) < 30 →
  ∃ t', train_iter t = Ok t' ∧ scenario_state t' ∧
        step (t_self t') = step (t_self t) + 1.
Proof.
  intros Hw Hs Hlt. unfold train_iter, maybe_evaluate.
  rewrite (scenario_eval_not_due _ (ss_cfg _ Hs) (ss_step _ Hs)).
  cbn [mbind result_bind].
  destruct (scenario_flush t Hs) as (t1 & -> & Hs1 & Hself1). cbn [mbind result_bind].
  destruct (scenario_interact t1 Hw Hs1) as (t2 & -> & Hs2 & Hstep2 & Hfill);
    [by rewrite Hself1|].
  cbn [mbind result_bind].
  destruct (scenario_learn t2 Hw Hs2) as (t3 & -> & Hs3 & Hself3); [|done|].
  { rewrite Hstep2, Hself1. pose proof (ss_step _ Hs). lia. }
  exists t3. split; [done|]. split; [done|]. by rewrite Hself3, Hstep2, Hself1.
Qed.

Lemma scenario_train_loop fuel t :
  single_env_world → scenario_state t → ∃ t', train_loop fuel t = Ok t'.
Proof.
  intros Hw. revert t. induction fuel as [|fuel IH]; intros t Hs; cbn [train_loop];
    unfold loop_cond, getattr; rewrite (sc_num_train_steps _ (ss_cfg _ Hs));
    cbn [mbind result_bind py_lt as_num].
  - destruct (_ <? _); by eexists.
  - destruct (Z.ltb_spec (step (t_self t)) 30) as [Hlt|]; [|by eexists].
    destruct (scenario_train_iter t Hw Hs Hlt) as (t1 & -> & Hs1 & _).
    cbn [mbind result_bind]. by apply IH.
Qed.

Lemma scenario_lookup jax act_dim mel self0 name :
  SAC_init jax act_dim (CfgDict scenario_kwargs) = Ok self0 →
  name ≠ "target_entropy" → name ≠ "num_train_steps" → name ≠ "max_episode_length" →
  cfg (set_cfg (set_cfg self0 "num_train_steps" (VInt 30)) "max_episode_length" mel) !! name
  = (scenario_kwargs ∪ list_to_map SACConfig_defaults) !! name.
Proof.
  intros Hinit H1 H2 H3. cbn [set_cfg cfg].
  rewrite !lookup_insert_ne by done. by eapply SAC_init_lookup.
Qed.

Lemma scenario_cfg_built jax act_dim mel self0 :
  SAC_init jax act_dim (CfgDict scenario_kwargs) = Ok self0 →
  scenario_cfg
    (cfg (set_cfg (set_cfg self0 "num_train_steps" (VInt 30)) "max_episode_length" mel)).
Proof.
  intros Hinit.
  assert (Hdef : ∀ name v,
            (scenario_kwargs ∪ list_to_map SACConfig_defaults) !! name = Some v →
            name ≠ "target_entropy" → name ≠ "num_train_steps" →
            name ≠ "max_episode_length" →
            cfg (set_cfg (set_cfg self0 "num_train_steps" (VInt 30))
                   "max_episode_length" mel) !! name = Some v).
  { intros name v Hv H1 H2 H3. by rewrite (scenario_lookup _ _ _ _ _ Hinit). }
  constructor.
  - cbn [set_cfg cfg]. rewrite lookup_insert_ne by done. by rewrite lookup_insert_eq.
  - apply Hdef; [vm_compute; reflexivity|done..].
  - apply Hdef; [vm_compute; reflexivity|done..].
  - apply Hdef; [vm_compute; reflexivity|done..].
  - cbn [set_cfg cfg]. rewrite lookup_insert_eq. by eexists.
  - apply Hdef; [vm_compute; reflexivity|done..].
  - apply Hdef; [vm_compute; reflexivity|done..].
  - apply Hdef; [vm_compute; reflexivity|done..].
  - eexists. apply Hdef; [vm_compute; reflexivity|done..].
  - eexists. apply Hdef; [vm_compute; reflexivity|done..].
  - apply Hdef; [vm_compute; reflexivity|done..].
  - apply Hdef; [vm_compute; reflexivity|done..].
  - cbn [set_cfg cfg]. rewrite !lookup_insert_ne by done.
    apply SAC_init_inv in Hinit as (_ & _ & cfg0 & cap & te & _ & _ & _ & Hte & ->).
    destruct te; rewrite ?lookup_insert_eq, ?Hte; by eexists.
  - apply Hdef; [vm_compute; reflexivity|done..].
Qed.

Lemma GenericBuffer_new_single cap buf :
  GenericBuffer_new (VInt cap) 1 = Ok buf →
  capacity_per_env buf = Z.to_nat cap ∧
  rings buf = [ {| slots := replicate (Z.to_nat cap) None; cursor := 0; fill := 0 |} ].
Proof.
  unfold GenericBuffer_new. cbn [as_num mbind result_bind Z.eqb].
  destruct ((cap <? 0) || (1 <? 0)); [discriminate|]. intros [= <-].
  cbn [capacity_per_env rings]. unfold ceil_div.
  replace ((cap + 1 - 1) / 1) with cap by (rewrite Z.div_1_r; lia). done.
Qed.

(** In a stateful world of one environment the run of the scenario goes
    through. *)
Lemma scenario_train_completes act_dim mel self0 w k ac :
  single_env_world →
  length (params (critic ac)) = length (params (target_critic ac)) →
  SAC_init false act_dim (CfgDict scenario_kwargs) = Ok self0 →
  ∃ t', train (set_cfg (set_cfg self0 "num_train_steps" (VInt 30))
                 "max_episode_length" mel) w k ac = Ok t'.
Proof.
  intros Hw Hlen Hinit.
  pose proof (scenario_cfg_built _ _ mel _ Hinit) as Hc.
  pose proof (SAC_init_inv _ _ _ _ Hinit)
    as (Hstep & Hjax & cfg0 & cap & te & Hcfg0 & Hcap & Hbuf & _ & _).
  apply SACConfig_inv in Hcfg0 as [-> _].
  assert (Hcap' : (scenario_kwargs ∪ list_to_map SACConfig_defaults)
                    !! "replay_buffer_capacity" = Some (VInt 100))
    by (vm_compute; reflexivity).
  rewrite Hcap' in Hcap. injection Hcap as <-.
  apply GenericBuffer_new_single in Hbuf as [Hcapacity Hrings].
  unfold train, getattr, split2.
  rewrite (sc_num_envs _ Hc), (sc_num_train_steps _ Hc).
  cbn [np_zeros Z.ltb Z.compare mbind result_bind].
  cbn [set_cfg jax_env step]. rewrite Hjax.
  pose proof (proj1 Hw w) as Hreset.
  destruct (gym_reset w) as [o w']. cbn [fst] in Hreset.
  cbn [iterations_left].
  apply scenario_train_loop; [exact Hw|].
  constructor; cbn [t_self t_ac t_ep_lens t_ep_rets t_dones t_env_obs t_env_states
                    set_cfg jax_env step replay_buffer cfg].
  - exact Hc.
  - exact Hjax.
  - rewrite Hstep. lia.
  - reflexivity.
  - reflexivity.
  - reflexivity.
  - exact Hreset.
  - by eexists.
  - rewrite Hcapacity. reflexivity.
  - rewrite Hrings. eexists. split; [reflexivity|]. unfold ring_ok. cbn [slots cursor fill].
    rewrite length_replicate. repeat split; try lia; try done.
  - exact Hlen.
Qed.

(** C1, as the code has it.  In the scenario ([num_seed_steps = 20],
    [actor_update_freq = 2], 30 steps in all) a run that completes has gone
    through 30 iterations and has called [update_parameters] at the step
    counters 20 to 30: 11 critic updates, 6 of them with an actor update,
    whatever the environment, the networks and the losses are; and in a
    stateful world of one environment the run does complete. *)
Theorem scenario_update_counts jax act_dim mel self0 w k ac :
  SAC_init jax act_dim (CfgDict scenario_kwargs) = Ok self0 →
  (∀ t',
     train (set_cfg (set_cfg self0 "num_train_steps" (VInt 30)) "max_episode_length" mel)
       w k ac = Ok t' →
     step (t_self t') = 30 ∧
     critic_updates (t_events t') = 11%nat ∧
     actor_updates (t_events t') = 6%nat) ∧
  (jax = false → single_env_world →
   length (params (critic ac)) = length (params (target_critic ac)) →
   ∃ t',
     train (set_cfg (set_cfg self0 "num_train_steps" (VInt 30)) "max_episode_length" mel)
       w k ac = Ok t').
Proof.
  intros Hinit. split.
  - intros t' E.
    pose proof (SAC_init_inv _ _ _ _ Hinit) as (Hs & _).
    pose proof (scenario_cfg_built _ _ mel _ Hinit) as Hc.
    apply (train_labels 30 20 2 1) in E as [Hl Hstep];
      [|apply (sc_num_train_steps _ Hc)|apply (sc_num_seed_steps _ Hc)
       |apply (sc_actor_update_freq _ Hc)|apply (sc_target_update_freq _ Hc)].
    cbn [set_cfg step] in Hl, Hstep. rewrite Hs in Hl, Hstep.
    unfold critic_updates, actor_updates. rewrite Hl, Hstep.
    vm_compute. split; [reflexivity|split; reflexivity].
  - intros -> Hw Hlen. by eapply scenario_train_completes.
Qed.

(** The buffer the agent builds has one ring, of the whole capacity. *)
Lemma SAC_init_buffer jax act_dim c self :
  SAC_init jax act_dim c = Ok self →
  length (rings (replay_buffer self)) = 1%nat ∧
  ∀ cap, cfg self !! "replay_buffer_capacity" = Some (VInt cap) →
         capacity_per_env (replay_buffer self) = Z.to_nat cap.
Proof.
  intros E. apply SAC_init_inv in E as (_ & _ & cfg0 & capv & te & _ & Hcap & Hbuf & _ & Hcfg).
  assert (Hcap' : cfg self !! "replay_buffer_capacity" = Some capv).
  { rewrite Hcfg. destruct te; try done. by rewrite lookup_insert_ne. }
  unfold GenericBuffer_new in Hbuf. bind_inv Hbuf as n Hn.
  destruct n as [size|]; [|discriminate Hbuf]. cbn [Z.eqb] in Hbuf.
  destruct ((size <? 0) || (1 <? 0)); [discriminate Hbuf|]. injection Hbuf as <-.
  cbn [rings capacity_per_env]. split; [done|].
  intros cap Hc. rewrite Hcap' in Hc. injection Hc as ->. injection Hn as <-.
  unfold ceil_div. f_equal. rewrite Z.div_1_r. lia.
Qed.

(** [train] on a configuration without [num_train_steps]. *)
Lemma train_without_num_train_steps self w k ac :
  cfg self !! "num_train_steps" = None →
  ∃ e, train self w k ac = Raise e ∧
       (∀ n, cfg self !! "num_envs" = Some (VInt n) → 0 ≤ n →
             e = AttributeError "num_train_steps").
Proof.
  intros Hnts. unfold train, getattr, split2. rewrite Hnts.
  destruct (cfg self !! "num_envs") as [v|]; cbn [mbind result_bind];
    [|eexists; split; [reflexivity|discriminate]].
  destruct v as [z| | |]; cbn [np_zeros mbind result_bind];
    try (eexists; split; [reflexivity|discriminate]).
  - destruct (Z.ltb_spec z 0); cbn [mbind result_bind].
    + eexists. split; [reflexivity|]. intros n [= <-]. lia.
    + destruct (jax_env self).
      * destruct (env_reset _). eexists. split; [reflexivity|done].
      * destruct (gym_reset _). eexists. split; [reflexivity|done].
  - destruct (jax_env self).
    + destruct (env_reset _). eexists. split; [reflexivity|done].
    + destruct (gym_reset _). eexists. split; [reflexivity|done].
Qed.

(** C2, as the code has it.  A dictionary with exactly the recognised options
    builds a configuration, but the agent built on it has neither
    [num_train_steps] nor [max_episode_length], and [train] never completes:
    it raises, and with a plain number of environments what it raises is
    the [AttributeError] on [num_train_steps]. *)
Theorem train_needs_undeclared_attributes (kwargs : PyObj) :
  dom kwargs = list_to_set SACConfig_fields →
  (∃ cfg0, SACConfig kwargs = Ok cfg0) ∧
  ∀ jax act_dim self w k ac,
    SAC_init jax act_dim (CfgDict kwargs) = Ok self →
    cfg self !! "num_train_steps" = None ∧
    cfg self !! "max_episode_length" = None ∧
    ∃ e, train self w k ac = Raise e ∧
         (∀ n, kwargs !! "num_envs" = Some (VInt n) → 0 ≤ n →
               e = AttributeError "num_train_steps").
Proof.
  intros Hdom. split.
  { unfold SACConfig. rewrite Hdom.
    rewrite decide_True by done. rewrite decide_True by compute_done. by eexists. }
  intros jax act_dim self w k ac E.
  assert (Hnone : ∀ name, name ∉ SACConfig_fields → name ≠ "target_entropy" →
            cfg self !! name = None).
  { intros name Hname Hne. rewrite (SAC_init_lookup _ _ _ _ _ E Hne).
    apply lookup_union_None. split.
    - apply not_elem_of_dom. rewrite Hdom. by rewrite elem_of_list_to_set.
    - apply not_elem_of_list_to_map. intros Hin. apply Hname.
      unfold SACConfig_fields. apply elem_of_app. by right. }
  assert (Hnts : cfg self !! "num_train_steps" = None).
  { apply Hnone; [|done]. compute_done. }
  assert (Hmel : cfg self !! "max_episode_length" = None).
  { apply Hnone; [|done]. compute_done. }
  repeat (split; [done|]).
  destruct (train_without_num_train_steps self w k ac Hnts) as (e & He & Hspec).
  exists e. split; [done|]. intros n Hn Hpos. apply (Hspec n); [|done].
  rewrite (SAC_init_lookup _ _ _ _ "num_envs" E) by done.
  by apply lookup_union_Some_l.
Qed.

(** ** Action selection *)

Lemma child_neq k i : child k i ≠ k.
Proof.
  unfold child. intros E. apply (f_equal length) in E.
  rewrite length_app in E. cbn in E. lia.
Qed.

Lemma child_inj k i j : child k i = child k j → i = j.
Proof. unfold child. intros E. apply app_inv_head in E. by injection E. Qed.


(** * More of the agent *)


(** ** Construction of the configuration and of the agent *)

Lemma SACConfig_fields_dom :
  list_to_set SACConfig_fields
  = (list_to_set SACConfig_required ∪ dom (list_to_map SACConfig_defaults : PyObj) : gset string).
Proof.
  unfold SACConfig_fields. rewrite list_to_set_app_L, dom_list_to_map_L. reflexivity.
Qed.

(** X1.  The dataclass constructor succeeds exactly on the dictionaries whose
    keys are declared fields and include the three required ones; the object
    it builds has every declared field and no other, with the values given
    and the defaults elsewhere; any other dictionary is a [TypeError]. *)
Theorem SACConfig_spec (kwargs : PyObj) :
  (dom kwargs ⊆ list_to_set SACConfig_fields →
   list_to_set SACConfig_required ⊆ dom kwargs →
   ∃ c, SACConfig kwargs = Ok c ∧
        dom c = list_to_set SACConfig_fields ∧
        (∀ name v, kwargs !! name = Some v → c !! name = Some v) ∧
        (∀ name, kwargs !! name = None →
                 c !! name = (list_to_map SACConfig_defaults : PyObj) !! name)) ∧
  (¬ (dom kwargs ⊆ list_to_set SACConfig_fields ∧
      list_to_set SACConfig_required ⊆ dom kwargs) →
   SACConfig kwargs = Raise TypeError).
Proof.
  unfold SACConfig. split.
  - intros Hsub Hreq. rewrite !decide_True by done. eexists. split; [reflexivity|].
    split; [|split].
    + rewrite dom_union_L, SACConfig_fields_dom.
      rewrite SACConfig_fields_dom in Hsub.
      apply set_eq. intros x. rewrite !elem_of_union. split.
      * intros [Hx|Hx]; [|by right]. apply Hsub in Hx. by apply elem_of_union in Hx.
      * intros [Hx|Hx]; [|by right]. left. by apply Hreq.
    + intros name v Hv. by apply lookup_union_Some_l.
    + intros name Hnone. by rewrite lookup_union_r.
  - intros Hno. destruct (decide (dom kwargs ⊆ _)); [|done].
    destruct (decide (_ ⊆ dom kwargs)); [|done]. exfalso. by apply Hno.
Qed.

(** X2.  The agent starts at step 0 and never holds [None] as target entropy: a
    configuration that leaves it unset gets [- action_dim / 2], a value that
    is given is kept, and no other attribute is touched; a configuration
    passed as an object is taken as it is, so that an object without
    [replay_buffer_capacity] is an [AttributeError]. *)
Theorem SAC_init_spec jax act_dim :
  (∀ c self,
     SAC_init jax act_dim c = Ok self →
     step self = 0 ∧ jax_env self = jax ∧ action_dim self = act_dim ∧
     ∃ cfg0 te,
       match c with CfgDict d => SACConfig d | CfgObj o => Ok o end = Ok cfg0 ∧
       cfg0 !! "target_entropy" = Some te ∧
       cfg self !! "target_entropy"
       = Some (match te with VNone => VFloat (- act_dim # 2) | _ => te end) ∧
       cfg self !! "target_entropy" ≠ Some VNone ∧
       (∀ name, name ≠ "target_entropy" → cfg self !! name = cfg0 !! name)) ∧
  (∀ o, o !! "replay_buffer_capacity" = None →
        SAC_init jax act_dim (CfgObj o) = Raise (AttributeError "replay_buffer_capacity")).
Proof.
  split.
  - intros c self E. unfold SAC_init in E.
    bind_inv E as cfg0 Hcfg. bind_inv E as cap Hcap. bind_inv E as buf Hbuf.
    bind_inv E as te Hte. apply getattr_Ok in Hte. injection E as <-.
    cbn [step jax_env action_dim cfg]. repeat (split; [reflexivity|]).
    exists cfg0, te. split; [exact Hcfg|]. split; [exact Hte|].
    destruct te; rewrite ?lookup_insert_eq, ?Hte;
      (split; [reflexivity|]); (split; [discriminate|]);
      intros name Hne; rewrite ?lookup_insert_ne by done; reflexivity.
  - intros o Hnone. unfold SAC_init, getattr. cbn [mbind result_bind].
    by rewrite Hnone.
Qed.

(** ** A functional environment *)

Lemma train_iter_unbound t t' :
  t_env_states t = Unbound → train_iter t ≠ Ok t'.
Proof.
  intros Hu E. unfold train_iter in E.
  bind_inv E as t1 H1. bind_inv E as t2 H2. bind_inv E as t3 H3.
  apply maybe_evaluate_inv in H1 as (_ & _ & _ & _ & _ & Hs1 & _).
  apply flush_episodes_inv in H2 as (_ & _ & _ & _ & _ & Hs2 & _).
  unfold interact, split2 in H3. rewrite Hs2, Hs1, Hu in H3. discriminate H3.
Qed.

Lemma np_any_replicate_false n : np_any (replicate n false) = false.
Proof. unfold np_any. induction n as [|n IH]; [reflexivity|exact IH]. Qed.

(** X3.  With [jax_env] set, [train] cannot take a single step: the loop reads
    [env_states], which that branch never assigned.  A call that returns has
    done nothing, and a call that enters the loop without an evaluation due
    raises [UnboundLocalError]. *)
Theorem train_functional_env_never_steps self w k ac :
  jax_env self = true →
  (∀ t', train self w k ac = Ok t' → t_events t' = [] ∧ t_self t' = self) ∧
  (∀ n N, cfg self !! "num_envs" = Some (VInt n) → 0 ≤ n →
          cfg self !! "num_train_steps" = Some (VInt N) → step self < N →
          eval_due self = Ok false →
          train self w k ac = Raise (UnboundLocalError "env_states")).
Proof.
  intros Hjax. split.
  - intros t' E. apply train_inv in E as (nts & t0 & _ & E & Hself & _ & Hev & Hst).
    rewrite Hjax in Hst.
    destruct (iterations_left (step self) nts) as [|fuel]; cbn [train_loop] in E.
    + bind_inv E as go Hgo. destruct go; injection E as <-; by rewrite Hev, Hself.
    + bind_inv E as go Hgo. destruct go; [|injection E as <-; by rewrite Hev, Hself].
      bind_inv E as t1 Ht1. by apply train_iter_unbound in Ht1.
  - intros n N Hn Hpos HN Hlt Hdue. unfold train, getattr, split2.
    rewrite Hn, HN, Hjax. cbn [np_zeros mbind result_bind].
    destruct (Z.ltb_spec n 0); [lia|]. cbn [mbind result_bind].
    destruct (env_reset _) as [o s]. cbn [iterations_left].
    destruct (Z.to_nat (N - step self)) as [|fuel] eqn:Hfuel; [lia|].
    cbn [train_loop]. unfold loop_cond, getattr. cbn [t_self]. rewrite HN.
    cbn [mbind result_bind py_lt as_num].
    destruct (Z.ltb_spec (step self) N); [|lia]. cbn [mbind result_bind].
    unfold train_iter, maybe_evaluate. cbn [t_self]. rewrite Hdue.
    cbn [mbind result_bind]. unfold flush_episodes. cbn [t_dones].
    rewrite np_any_replicate_false. cbn [mbind result_bind].
    unfold interact, split2. cbn [t_env_states mbind result_bind]. reflexivity.
Qed.

(** ** Frequencies set to zero *)

(** X4.  A zero frequency does not mean the same everywhere.  With [eval_freq]
    zero every iteration raises [ZeroDivisionError] before it does anything,
    since the modulo is taken before [eval_freq > 0] is looked at; with
    [actor_update_freq] zero the first update raises; with [log_freq] zero
    or negative nothing is logged and nothing is raised. *)
Theorem zero_frequencies (t : Train) :
  (cfg (t_self t) !! "eval_freq" = Some (VInt 0) →
   train_iter t = Raise ZeroDivisionError) ∧
  (∀ nss, cfg (t_self t) !! "num_seed_steps" = Some nss →
          py_ge (step (t_self t)) nss = Ok true →
          cfg (t_self t) !! "actor_update_freq" = Some (VInt 0) →
          learn t = Raise ZeroDivisionError) ∧
  (∀ f aux ua, cfg (t_self t) !! "log_freq" = Some (VInt f) → f ≤ 0 →
               log_update (t_self t) aux ua = Ok []).
Proof.
  split; [|split].
  - intros Hf. unfold train_iter, maybe_evaluate, eval_due, getattr. by rewrite Hf.
  - intros nss Hnss Hwarm Hf. unfold learn, getattr. rewrite Hnss.
    cbn [mbind result_bind]. rewrite Hwarm. cbn [mbind result_bind].
    unfold split3. by rewrite Hf.
  - intros f aux ua Hf Hle. unfold log_update, getattr. rewrite Hf.
    cbn [mbind result_bind py_pos as_num].
    destruct (Z.ltb_spec 0 f); [lia|reflexivity].
Qed.

(** ** Counting the steps of a run *)

Lemma run_labels_counts nss auf tuf n : ∀ s,
  length (List.filter is_step (run_labels nss auf tuf s n)) = n ∧
  stores (run_labels nss auf tuf s n) = Z.of_nat n ∧
  length (List.filter is_seeded_step (run_labels nss auf tuf s n))
  = Z.to_nat (Z.min (s + Z.of_nat n) nss - s) ∧
  length (List.filter is_update (run_labels nss auf tuf s n))
  = Z.to_nat (s + Z.of_nat n - Z.max s (nss - 1)).
Proof.
  induction n as [|n IH]; intros s.
  - cbn. repeat split; lia.
  - destruct (IH (s + 1)) as (IH1 & IH2 & IH3 & IH4).
    cbn [run_labels]. unfold iteration_labels, stores in *.
    rewrite !List.filter_app, !length_app, IH1, IH3, IH4.
    cbn [List.filter is_step is_store is_seeded_step is_update length app].
    destruct (Z.ltb_spec s nss); destruct (Z.leb_spec nss (s + 1));
      cbn [List.filter is_step is_store is_seeded_step is_update length app];
      repeat split; lia.
Qed.

(** X5.  With integer attributes, a run of [train] that returns has taken
    [num_train_steps - step] environment steps (none when the counter is
    already there), has stored each of them, has left the counter at
    [num_train_steps], has used the seed sampler for the steps below
    [num_seed_steps] and has run one update for every counter from
    [num_seed_steps] on, the counter reached by the last seed step
    included. *)
Theorem run_counts (N nss auf tuf : Z) self w k ac t' :
  cfg self !! "num_train_steps" = Some (VInt N) →
  cfg self !! "num_seed_steps" = Some (VInt nss) →
  cfg self !! "actor_update_freq" = Some (VInt auf) →
  cfg self !! "target_update_freq" = Some (VInt tuf) →
  train self w k ac = Ok t' →
  step (t_self t') = Z.max (step self) N ∧
  env_steps (t_events t') = Z.to_nat (N - step self) ∧
  stored (t_events t') = Z.max 0 (N - step self) ∧
  seeded_steps (t_events t') = Z.to_nat (Z.min N nss - step self) ∧
  critic_updates (t_events t') = Z.to_nat (N - Z.max (step self) (nss - 1)).
Proof.
  intros HN Hnss Hauf Htuf E.
  apply (train_labels N nss auf tuf) in E as [Hl Hstep]; try done.
  split; [exact Hstep|].
  unfold env_steps, seeded_steps, critic_updates, stored. rewrite Hl.
  destruct (run_labels_counts nss auf tuf (Z.to_nat (N - step self)) (step self))
    as (H1 & H2 & H3 & H4).
  rewrite H1, H2, H3, H4. repeat split; lia.
Qed.

(** ** The phases of an iteration, in full *)

Lemma stored_steps_app (a b : list Event) :
  stored_steps (a ++ b) = (stored_steps a ++ stored_steps b)%list.
Proof. apply omap_app. Qed.

Lemma keys_of_app (a b : list Event) : keys_of (a ++ b) = (keys_of a ++ keys_of b)%list.
Proof. apply omap_app. Qed.

Lemma quiet_stored_steps (ev : list Event) : labels ev = [] → stored_steps ev = [].
Proof.
  induction ev as [|e ev IH]; [done|].
  unfold labels, stored_steps. cbn [omap list_omap].
  fold (labels ev). fold (stored_steps ev).
  destruct e; cbn; try discriminate; intros Hq; by apply IH.
Qed.

Lemma log_update_keys self aux ua logs :
  log_update self aux ua = Ok logs → keys_of logs = [].
Proof.
  unfold log_update. intros E. bind_inv E as lf Hlf. bind_inv E as c1 Hc1.
  destruct c1; [|by injection E as <-].
  bind_inv E as lf' Hlf'. bind_inv E as c2 Hc2.
  destruct c2; [|by injection E as <-].
  bind_inv E as al Hal. injection E as <-.
  assert (Hnone : keys_of al = []).
  { destruct ua; [|by injection Hal as <-].
    bind_inv Hal as te Hte. bind_inv Hal as q Hq. bind_inv Hal as lt Hlt.
    injection Hal as <-. by destruct (py_truthy lt). }
  change (keys_of (al ++ [LoggerLog (step self); LoggerReset]) = []).
  by rewrite keys_of_app, Hnone.
Qed.

(** An evaluation, when one is due, takes the second half of the key and
    leaves the first to the loop. *)
Lemma maybe_evaluate_full t t' :
  maybe_evaluate t = Ok t' →
  t_episodes t' = t_episodes t ∧ t_ep_rets t' = t_ep_rets t ∧
  (t' = t ∨
   ∃ ev, t_events t' =
           (t_events t ++ Evaluate (step (t_self t)) (child (t_rng_key t) 1) :: ev)%list ∧
         keys_of ev = [] ∧
         t_rng_key t' = child (t_rng_key t) 0).
Proof.
  unfold maybe_evaluate. intros E. bind_inv E as due Hdue.
  destruct due; [|injection E as <-; repeat (split; [done|]); by left].
  unfold split2 in E. bind_inv E as r Hr. destruct r as [ev w].
  injection E as <-. cbn. repeat (split; [done|]). right.
  exists ev. repeat (split; [done|]). split; [|done].
  unfold evaluate in Hr. bind_inv Hr as nee Hnee. bind_inv Hr as n Hn.
  destruct n as [z|q]; [|discriminate Hr].
  destruct (split _ _) as [|k0 [|k1 ks]]; try discriminate Hr.
  bind_inv Hr as es Hes.
  destruct (rollout _ _ _ _) as [[[rets lens] ends] w'].
  bind_inv Hr as rets' Hrets. bind_inv Hr as lens' Hlens.
  by injection Hr as <- <-.
Qed.

Lemma np_any_false (m : list bool) : np_any m = false → Forall (λ d, d = false) m.
Proof.
  unfold np_any. intros Hany. apply Forall_forall. intros d Hd.
  destruct d; [|done]. exfalso.
  assert (existsb id m = true); [|congruence].
  apply existsb_exists. exists true. split; [by apply list_elem_of_In|done].
Qed.

Lemma np_sum_all_false (m : list bool) : Forall (λ d, d = false) m → np_sum m = 0.
Proof.
  unfold np_sum. induction 1 as [|d l -> _ IH]; [done|].
  by rewrite filter_cons_False.
Qed.

Lemma zip_with_all_false {X} (ls : list X) (m : list bool) (v : X) :
  Forall (λ d, d = false) m → length m = length ls →
  ls = zip_with (λ l (d : bool), if d then v else l) ls m.
Proof.
  intros Hall. revert ls. induction Hall as [|d l -> _ IH];
    intros [|x ls] Hlen; try discriminate Hlen; [done|].
  cbn. f_equal. apply IH. by injection Hlen.
Qed.

Lemma flush_episodes_full t t' :
  flush_episodes t = Ok t' →
  t_rng_key t' = t_rng_key t ∧
  t_episodes t' = t_episodes t + np_sum (t_dones t) ∧
  (length (t_dones t) = length (t_ep_lens t) →
   t_ep_lens t' = zip_with (λ l (d : bool), if d then 0 else l) (t_ep_lens t) (t_dones t)) ∧
  ∃ ev, t_events t' = (t_events t ++ ev)%list ∧ keys_of ev = [].
Proof.
  unfold flush_episodes. intros E. destruct (np_any (t_dones t)) eqn:Hany.
  - bind_inv E as r1 Hr1. bind_inv E as r2 Hr2. bind_inv E as r3 Hr3.
    bind_inv E as r4 Hr4. injection E as <-. cbn.
    repeat (split; [done|]). split.
    + intros _. unfold np_assign in Hr3.
      destruct (_ =? _)%nat; [|discriminate Hr3]. by injection Hr3 as <-.
    + eexists. split; done.
  - injection E as <-. split; [done|].
    apply np_any_false in Hany.
    split; [rewrite (np_sum_all_false _ Hany); lia|].
    split; [by apply zip_with_all_false|].
    exists []. by rewrite app_nil_r.
Qed.

Lemma interact_full t t' :
  interact t = Ok t' →
  ∃ seed ts,
    t_events t' =
      (t_events t ++
       [EnvStep (step (t_self t)) (child (t_rng_key t) 1) seed (action ts);
        Store ts])%list ∧
    t_rng_key t' = child (t_rng_key t) 0 ∧
    env_obs ts = t_env_obs t ∧ next_env_obs ts = t_env_obs t' ∧
    store (replay_buffer (t_self t)) ts = Ok (replay_buffer (t_self t')) ∧
    t_episodes t' = t_episodes t ∧
    t_ep_lens t' = map (λ l, l + 1) (t_ep_lens t).
Proof.
  unfold interact, split2. intros E.
  bind_inv E as st Hst. bind_inv E as nss Hnss. bind_inv E as seed Hseed.
  destruct (_env_step _ _ _ _ _ _ _) as [[[[[[a o'] st'] rw] dn] inf] w'].
  bind_inv E as rets Hrets. bind_inv E as mel Hmel.
  bind_inv E as m Hm. bind_inv E as buf Hbuf. injection E as <-. cbn.
  exists seed, {| env_obs := t_env_obs t; reward := rw; action := a; mask := m;
                  next_env_obs := o' |}.
  repeat (split; [done|]). done.
Qed.

Lemma learn_full t t' :
  learn t = Ok t' →
  t_env_obs t' = t_env_obs t ∧ t_episodes t' = t_episodes t ∧
  (t' = t ∨
   ∃ ua ut logs,
     t_events t' =
       (t_events t ++
        UpdateParameters (step (t_self t)) (child (t_rng_key t) 1) ua ut :: logs)%list ∧
     keys_of logs = [] ∧
     t_rng_key t' = child (t_rng_key t) 0).
Proof.
  unfold learn. intros E.
  bind_inv E as nss Hnss. bind_inv E as warm Hwarm.
  destruct warm; [|injection E as <-; repeat (split; [done|]); by left].
  unfold split3 in E.
  bind_inv E as auf Hauf. bind_inv E as ua Hua.
  bind_inv E as tuf Htuf. bind_inv E as ut Hut.
  bind_inv E as bs Hbs. bind_inv E as batch Hbatch.
  bind_inv E as r Hr. destruct r as [[[[a' c'] tc'] tp'] aux].
  bind_inv E as logs Hlogs. injection E as <-. cbn.
  repeat (split; [done|]). right. exists ua, ut, logs.
  repeat (split; [done|]). split; [|done]. by eapply log_update_keys.
Qed.

(** What [train] sets up before the loop, in full. *)
Lemma train_start self w k ac t' :
  train self w k ac = Ok t' →
  ∃ nts t0,
    train_loop (iterations_left (step self) nts) t0 = Ok t' ∧
    t_self t0 = self ∧ t_events t0 = [] ∧ t_rng_key t0 = child k 0 ∧
    t_episodes t0 = 0 ∧
    t_env_obs t0 = (if jax_env self then fst (env_reset (child k 1))
                    else fst (gym_reset w)).
Proof.
  unfold train, split2. intros E.
  bind_inv E as ne Hne. bind_inv E as l1 Hl1. bind_inv E as l2 Hl2. bind_inv E as l3 Hl3.
  destruct (jax_env self) eqn:Hjax.
  - destruct (env_reset _) as [o s]. bind_inv E as nts Hnts.
    exists nts. eexists. split; [exact E|]. done.
  - destruct (gym_reset _) as [o w']. bind_inv E as nts Hnts.
    exists nts. eexists. split; [exact E|]. done.
Qed.

(** ** What the buffer is given *)

Lemma chained_snoc obs l obs' ts :
  chained obs l obs' → env_obs ts = obs' →
  chained obs (l ++ [ts]) (next_env_obs ts).
Proof.
  revert obs. induction l as [|x l IH]; intros obs; cbn.
  - by intros <- ->.
  - intros [-> Hc] Hts. split; [done|]. by apply IH.
Qed.

Lemma store_seq_snoc b l ts :
  store_seq b (l ++ [ts]) = (b' ← store_seq b l; store b' ts).
Proof. unfold store_seq. by rewrite foldl_app. Qed.

(** One iteration hands the buffer exactly one timestep. *)
Lemma train_iter_store t t' :
  train_iter t = Ok t' →
  ∃ ts,
    stored_steps (t_events t') = (stored_steps (t_events t) ++ [ts])%list ∧
    env_obs ts = t_env_obs t ∧ next_env_obs ts = t_env_obs t' ∧
    store (replay_buffer (t_self t)) ts = Ok (replay_buffer (t_self t')) ∧
    step (t_self t') = step (t_self t) + 1.
Proof.
  intros E. pose proof (train_iter_inv _ _ E) as (_ & _ & Hstep & _).
  unfold train_iter in E.
  bind_inv E as t1 H1. bind_inv E as t2 H2. bind_inv E as t3 H3.
  apply maybe_evaluate_inv in H1 as (Hs1 & _ & _ & _ & Ho1 & _ & ev1 & He1 & Hl1).
  apply flush_episodes_inv in H2 as (Hs2 & _ & _ & _ & Ho2 & _ & ev2 & He2 & Hl2).
  apply interact_full in H3 as (seed & ts & He3 & _ & Hobs & Hnext & Hstore & _).
  pose proof (learn_full _ _ E) as (Ho4 & _ & _).
  apply learn_inv in E as (Hs4 & _ & _ & nss & warm & _ & _ & Hupd).
  exists ts. rewrite Hs4, Ho4. rewrite Hs2, Hs1 in Hstore. rewrite Ho2, Ho1 in Hobs.
  rewrite Hs4 in Hstep. split; [|done].
  assert (H3' : stored_steps (t_events t3) = (stored_steps (t_events t) ++ [ts])%list).
  { rewrite He3, He2, He1, !stored_steps_app.
    rewrite (quiet_stored_steps _ Hl1), (quiet_stored_steps _ Hl2).
    by rewrite !app_nil_r. }
  destruct warm; [|by subst t'].
  destruct Hupd as (auf & tuf & ua & ut & logs & _ & _ & _ & _ & -> & Hlogs).
  rewrite stored_steps_app, H3'.
  change (stored_steps (UpdateParameters ?s ?k ua ut :: logs)) with (stored_steps logs).
  by rewrite (quiet_stored_steps _ Hlogs), app_nil_r.
Qed.

(** X6.  The buffer of the agent after a run is its buffer before the run with
    the timesteps of the run stored in it, in order, one for every step of
    the counter; and each of them starts from the observation the one
    before ended on, the first from the observation of the reset. *)
Theorem stored_transitions self w k ac t' :
  train self w k ac = Ok t' →
  chained (if jax_env self then fst (env_reset (child k 1)) else fst (gym_reset w))
    (stored_steps (t_events t')) (t_env_obs t') ∧
  store_seq (replay_buffer self) (stored_steps (t_events t'))
  = Ok (replay_buffer (t_self t')) ∧
  Z.of_nat (length (stored_steps (t_events t'))) = step (t_self t') - step self.
Proof.
  intros E. apply train_start in E as (nts & t0 & E & Hself & Hev & _ & _ & Hobs).
  set (obs0 := if jax_env self then _ else _) in *.
  apply (train_loop_invariant
           (λ t, chained obs0 (stored_steps (t_events t)) (t_env_obs t) ∧
                 store_seq (replay_buffer self) (stored_steps (t_events t))
                 = Ok (replay_buffer (t_self t)) ∧
                 Z.of_nat (length (stored_steps (t_events t)))
                 = step (t_self t) - step self)) in E; [exact E| |].
  - clear. intros t t' (Hch & Hst & Hlen) _ E.
    apply train_iter_store in E as (ts & -> & Hobs & <- & Hstore & Hstep).
    split; [eapply chained_snoc; [exact Hch|exact Hobs]|].
    split; [by rewrite store_seq_snoc, Hst|].
    rewrite length_app, Hstep. cbn [length]. lia.
  - rewrite Hev, Hself. cbn. repeat split; [by rewrite Hobs|lia].
Qed.

(** ** Keys are never used twice *)

Lemma prefix_child r i : r `prefix_of` child r i.
Proof. by exists [i]. Qed.

Lemma prefix_child_inv c r i : c `prefix_of` child r i → c = child r i ∨ c `prefix_of` r.
Proof.
  intros [rest Hrest]. unfold child in *.
  destruct rest as [|x rest _] using rev_ind.
  - left. by rewrite app_nil_r in Hrest.
  - right. rewrite app_assoc in Hrest. apply app_inj_tail in Hrest as [-> _].
    by exists rest.
Qed.

Lemma child_not_prefix r i j : i ≠ j → ¬ child r i `prefix_of` child r j.
Proof.
  intros Hij Hp. apply prefix_child_inv in Hp as [Hp|Hp].
  - by apply child_inj in Hp.
  - apply prefix_length in Hp. unfold child in Hp. rewrite length_app in Hp.
    cbn in Hp. lia.
Qed.

(** Splitting [r], giving out the second half and carrying on the first. *)
Lemma fresh_for_split root r ks :
  fresh_for root r ks → fresh_for root (child r 0) (ks ++ [child r 1]).
Proof.
  intros (Hroot & Hinc & Hall).
  assert (Hold : ∀ c, c ∈ ks → ¬ c `prefix_of` child r 1 ∧ ¬ child r 1 `prefix_of` c
                               ∧ ¬ child r 0 `prefix_of` c ∧ ¬ c `prefix_of` child r 0).
  { intros c Hc. destruct (Hall c Hc) as (H1 & H2 & _).
    repeat split; intros Hp.
    - apply prefix_child_inv in Hp as [->|Hp]; [|done]. apply H1, prefix_child.
    - apply H1. etrans; [apply prefix_child|exact Hp].
    - apply H1. etrans; [apply prefix_child|exact Hp].
    - apply prefix_child_inv in Hp as [->|Hp]; [|done]. apply H1, prefix_child. }
  split; [etrans; [exact Hroot|apply prefix_child]|].
  split.
  - intros i j c d Hij Hi Hj.
    apply lookup_snoc_Some in Hi as [[_ Hi]|[-> <-]];
      apply lookup_snoc_Some in Hj as [[Hlt Hj]|[-> <-]].
    + by apply (Hinc i j).
    + apply list_elem_of_lookup_2 in Hi. by apply Hold.
    + apply list_elem_of_lookup_2 in Hj. by apply Hold.
    + done.
  - intros c Hc. apply elem_of_app in Hc as [Hc|Hc].
    + destruct (Hold c Hc) as (_ & _ & H3 & H4). destruct (Hall c Hc) as (_ & _ & H5).
      done.
    + apply list_elem_of_singleton in Hc as ->.
      split; [by apply child_not_prefix|]. split; [by apply child_not_prefix|].
      etrans; [exact Hroot|apply prefix_child].
Qed.

(** One iteration keeps the keys fresh. *)
Lemma train_iter_fresh root t t' :
  train_iter t = Ok t' →
  fresh_for root (t_rng_key t) (keys_of (t_events t)) →
  fresh_for root (t_rng_key t') (keys_of (t_events t')).
Proof.
  unfold train_iter. intros E Hf.
  bind_inv E as t1 H1. bind_inv E as t2 H2. bind_inv E as t3 H3.
  assert (Hf1 : fresh_for root (t_rng_key t1) (keys_of (t_events t1))).
  { apply maybe_evaluate_full in H1 as (_ & _ & [->|(ev & -> & Hev & ->)]); [done|].
    rewrite keys_of_app.
    change (keys_of (Evaluate ?s ?k :: ev)) with (k :: keys_of ev).
    rewrite Hev. by apply fresh_for_split. }
  assert (Hf2 : fresh_for root (t_rng_key t2) (keys_of (t_events t2))).
  { apply flush_episodes_full in H2 as (-> & _ & _ & ev & -> & Hev).
    by rewrite keys_of_app, Hev, app_nil_r. }
  assert (Hf3 : fresh_for root (t_rng_key t3) (keys_of (t_events t3))).
  { apply interact_full in H3 as (seed & ts & -> & -> & _).
    rewrite keys_of_app. by apply fresh_for_split. }
  apply learn_full in E as (_ & _ & [->|(ua & ut & logs & -> & Hlogs & ->)]); [done|].
  rewrite keys_of_app.
  change (keys_of (UpdateParameters ?s ?k ua ut :: logs)) with (k :: keys_of logs).
  rewrite Hlogs. by apply fresh_for_split.
Qed.

(** X7.  In a run no key is handed out twice: the keys given to [evaluate],
    [_env_step] and [update_parameters] are pairwise such that none extends
    another, so that they and everything split off from them are distinct;
    all come from the first half of the key [train] was given (the second
    half went to the reset), and none is extended by the key the loop
    carries on at the end. *)
Theorem keys_never_reused self w k ac t' :
  train self w k ac = Ok t' →
  incomparable (keys_of (t_events t')) ∧
  NoDup (keys_of (t_events t')) ∧
  ∀ c, c ∈ keys_of (t_events t') →
       child k 0 `prefix_of` c ∧ ¬ child k 1 `prefix_of` c ∧
       ¬ t_rng_key t' `prefix_of` c.
Proof.
  intros E. apply train_start in E as (nts & t0 & E & _ & Hev & Hkey & _).
  apply (train_loop_invariant
           (λ t, fresh_for (child k 0) (t_rng_key t) (keys_of (t_events t)))) in E.
  - destruct E as (_ & Hinc & Hall). split; [exact Hinc|]. split.
    + apply NoDup_alt. intros i j c Hi Hj.
      destruct (decide (i = j)) as [|Hij]; [done|].
      by destruct (Hinc i j c c Hij Hi Hj).
    + intros c Hc. destruct (Hall c Hc) as (H1 & _ & H3).
      split; [exact H3|]. split; [|exact H1].
      intros Hp. destruct H3 as [r3 ->]. destruct Hp as [r1 Hp].
      unfold child in Hp. rewrite <- !app_assoc in Hp.
      apply app_inv_head in Hp. discriminate Hp.
  - intros t1 t2 Hf _ Hiter. by eapply train_iter_fresh.
  - rewrite Hev, Hkey. change (keys_of []) with (@nil PRNGKey).
    split; [done|]. split.
    + intros i j c d _ Hi. by rewrite lookup_nil in Hi.
    + intros c Hc. by apply elem_of_nil in Hc.
Qed.

(** ** The episodes reported during training *)

Lemma train_episode_lens_app (a b : list Event) :
  train_episode_lens (a ++ b) = (train_episode_lens a ++ train_episode_lens b)%list.
Proof. unfold train_episode_lens. by rewrite omap_app, concat_app. Qed.

Lemma np_select_length {X} (xs : list X) (m : list bool) r :
  np_select xs m = Ok r → Z.of_nat (length r) = np_sum m ∧ ∀ x, x ∈ r → x ∈ xs.
Proof.
  unfold np_select, np_sum. destruct (_ =? _)%nat eqn:Hlen; [|discriminate].
  intros [= <-]. apply Nat.eqb_eq in Hlen. split.
  - f_equal. revert m Hlen. induction xs as [|x xs IH]; intros [|[] m] Hlen;
      try discriminate Hlen; cbn [zip zip_with]; [done| |].
    + rewrite !filter_cons_True by done. cbn. f_equal. apply IH. by injection Hlen.
    + rewrite !filter_cons_False by done. apply IH. by injection Hlen.
  - intros x Hx. apply list_elem_of_fmap in Hx as ([x' b] & -> & Hx).
    apply list_elem_of_filter in Hx as [_ Hx]. cbn.
    by apply elem_of_zip_l in Hx.
Qed.

Lemma np_any_true (m : list bool) : np_any m = true → ¬ Forall (λ d, d = false) m.
Proof.
  unfold np_any. intros Hany Hall. apply existsb_exists in Hany as (d & Hd & Hid).
  apply list_elem_of_In in Hd. rewrite Forall_forall in Hall.
  rewrite (Hall d Hd) in Hid. discriminate Hid.
Qed.

Lemma Forall_assign {X} (P : X → Prop) (xs : list X) (m : list bool) (v : X) :
  P v → Forall P xs → Forall P (zip_with (λ x (b : bool), if b then v else x) xs m).
Proof.
  intros Hv Hxs. revert m. induction Hxs as [|x xs Hx _ IH]; intros [|b m]; cbn;
    try by apply Forall_nil.
  apply Forall_cons. split; [by destruct b|apply IH].
Qed.

Lemma evaluate_no_train_episodes self w k ac ev w' :
  evaluate self w k ac = Ok (ev, w') → train_episode_lens ev = [].
Proof.
  unfold evaluate. intros Hr. bind_inv Hr as nee Hnee. bind_inv Hr as n Hn.
  destruct n as [z|q]; [|discriminate Hr].
  destruct (split _ _) as [|k0 [|k1 ks]]; try discriminate Hr.
  bind_inv Hr as es Hes.
  destruct (rollout _ _ _ _) as [[[rets lens] ends] w2].
  bind_inv Hr as rets' Hrets. bind_inv Hr as lens' Hlens.
  by injection Hr as <- <-.
Qed.

Lemma log_update_no_episodes self aux ua logs :
  log_update self aux ua = Ok logs → train_episode_lens logs = [].
Proof.
  unfold log_update. intros E. bind_inv E as lf Hlf. bind_inv E as c1 Hc1.
  destruct c1; [|by injection E as <-].
  bind_inv E as lf' Hlf'. bind_inv E as c2 Hc2.
  destruct c2; [|by injection E as <-].
  bind_inv E as al Hal. injection E as <-.
  assert (Hnone : train_episode_lens al = []).
  { destruct ua; [|by injection Hal as <-].
    bind_inv Hal as te Hte. bind_inv Hal as q Hq. bind_inv Hal as lt Hlt.
    injection Hal as <-. by destruct (py_truthy lt). }
  change (train_episode_lens (al ++ [LoggerLog (step self); LoggerReset]) = []).
  by rewrite train_episode_lens_app, Hnone.
Qed.

Lemma maybe_evaluate_episodes s0 t t' :
  maybe_evaluate t = Ok t' → episodes_ok s0 t → episodes_ok s0 t'.
Proof.
  unfold maybe_evaluate. intros E. bind_inv E as due Hdue.
  destruct due; [|by injection E as <-].
  unfold split2 in E. bind_inv E as r Hr. destruct r as [ev w].
  injection E as <-. unfold episodes_ok. cbn [t_self t_events t_episodes t_ep_lens t_dones].
  apply evaluate_no_train_episodes in Hr.
  rewrite train_episode_lens_app.
  change (train_episode_lens (Evaluate ?s ?k :: ev)) with (train_episode_lens ev).
  by rewrite Hr, app_nil_r.
Qed.

Lemma learn_episodes s0 t t' :
  learn t = Ok t' → episodes_ok s0 t → episodes_ok s0 t'.
Proof.
  unfold learn. intros E.
  bind_inv E as nss Hnss. bind_inv E as warm Hwarm.
  destruct warm; [|by injection E as <-].
  unfold split3 in E.
  bind_inv E as auf Hauf. bind_inv E as ua Hua.
  bind_inv E as tuf Htuf. bind_inv E as ut Hut.
  bind_inv E as bs Hbs. bind_inv E as batch Hbatch.
  bind_inv E as r Hr. destruct r as [[[[a' c'] tc'] tp'] aux].
  bind_inv E as logs Hlogs. injection E as <-. unfold episodes_ok. cbn [t_self t_events t_episodes t_ep_lens t_dones].
  apply log_update_no_episodes in Hlogs.
  rewrite train_episode_lens_app.
  change (train_episode_lens (UpdateParameters ?s ?k ua ut :: logs))
    with (train_episode_lens logs).
  by rewrite Hlogs, app_nil_r.
Qed.

Lemma interact_episodes t t' :
  interact t = Ok t' →
  step (t_self t') = step (t_self t) + 1 ∧
  t_episodes t' = t_episodes t ∧
  t_ep_lens t' = map (λ l, l + 1) (t_ep_lens t) ∧
  train_episode_lens (t_events t') = train_episode_lens (t_events t).
Proof.
  unfold interact, split2. intros E.
  bind_inv E as st Hst. bind_inv E as nss Hnss. bind_inv E as seed Hseed.
  destruct (_env_step _ _ _ _ _ _ _) as [[[[[[a o'] st'] rw] dn] inf] w'].
  bind_inv E as rets Hrets. bind_inv E as mel Hmel.
  bind_inv E as m Hm. bind_inv E as buf Hbuf. injection E as <-.
  cbn [t_self t_events t_episodes t_ep_lens step].
  repeat (split; [done|]).
  rewrite train_episode_lens_app.
  change (train_episode_lens [EnvStep ?s ?k ?sd ?ac; Store ?x]) with (@nil Z).
  by rewrite app_nil_r.
Qed.

(** After the report of the finished episodes their counters are back at
    zero; the next environment step makes every counter at least one. *)
Lemma flush_interact_episodes s0 t t1 t' :
  flush_episodes t = Ok t1 → interact t1 = Ok t' →
  episodes_ok s0 t → episodes_ok s0 t'.
Proof.
  intros Hflush Hint (Hep & Hlog & Hlens & Hdone & Hs0).
  assert (Hmid : t_self t1 = t_self t ∧
                 t_episodes t1 = Z.of_nat (length (train_episode_lens (t_events t1))) ∧
                 Forall (λ l, 1 ≤ l ≤ step (t_self t) - s0)
                   (train_episode_lens (t_events t1)) ∧
                 Forall (λ l, 0 ≤ l ≤ step (t_self t) - s0) (t_ep_lens t1)).
  { revert Hflush. unfold flush_episodes. destruct (np_any (t_dones t)) eqn:Hany.
    - intros E. bind_inv E as r1 Hr1. bind_inv E as r2 Hr2. bind_inv E as r3 Hr3.
      bind_inv E as r4 Hr4. injection E as <-.
      cbn [t_self t_events t_episodes t_ep_lens t_dones].
      destruct Hdone as [Hdone|Hpos]; [by apply np_any_true in Hany|].
      apply np_select_length in Hr2 as [Hlen Hsub].
      rewrite train_episode_lens_app.
      change (train_episode_lens [LoggerStoreEpisodes "train" r1 r2; ?a; ?b])
        with (r2 ++ [])%list.
      rewrite app_nil_r, length_app, Nat2Z.inj_add, Hlen, <- Hep.
      split; [done|]. split; [done|]. split.
      + apply Forall_app. split; [done|]. apply Forall_forall. intros l Hl.
        apply Hsub in Hl. rewrite Forall_forall in Hpos, Hlens.
        specialize (Hpos l Hl). specialize (Hlens l Hl). lia.
      + unfold np_assign in Hr3. destruct (_ =? _)%nat; [|discriminate Hr3].
        injection Hr3 as <-. apply Forall_assign; [lia|done].
    - by intros [= <-]. }
  destruct Hmid as (Hself & Hep1 & Hlog1 & Hlens1).
  apply interact_episodes in Hint as (Hstep & Hep' & Hlens' & Hev').
  rewrite Hself in Hstep.
  unfold episodes_ok. rewrite Hep', Hev', Hlens', Hstep.
  split; [done|]. split; [|split; [|split; [|lia]]].
  - eapply Forall_impl; [exact Hlog1|]. intros l Hl. cbn beta in *. lia.
  - apply Forall_fmap. eapply Forall_impl; [exact Hlens1|].
    intros l Hl. unfold compose. cbn beta in *. lia.
  - right. apply Forall_fmap. eapply Forall_impl; [exact Hlens1|].
    intros l Hl. unfold compose. cbn beta in *. lia.
Qed.

Lemma np_zeros_replicate {X} (z : X) n l : np_zeros z n = Ok l → ∃ k, l = replicate k z.
Proof.
  destruct n as [i|q|b|]; cbn; try discriminate.
  - destruct (i <? 0); [discriminate|]. intros [= <-]. by eexists.
  - intros [= <-]. by eexists.
Qed.

(** X8.  The counter [episodes] of [train] is the number of episodes reported to
    the logger under [train], and every length reported there is at least
    one and at most the number of environment steps of the run. *)
Theorem train_episodes_reported self w k ac t' :
  train self w k ac = Ok t' →
  t_episodes t' = Z.of_nat (length (train_episode_lens (t_events t'))) ∧
  Forall (λ l, 1 ≤ l ≤ step (t_self t') - step self) (train_episode_lens (t_events t')).
Proof.
  intros E.
  assert (Hstart : ∃ nts t0,
             train_loop (iterations_left (step self) nts) t0 = Ok t' ∧
             episodes_ok (step self) t0).
  { revert E. unfold train, split2. intros E.
    bind_inv E as ne Hne. bind_inv E as l1 Hl1. bind_inv E as l2 Hl2.
    bind_inv E as l3 Hl3.
    apply np_zeros_replicate in Hl1 as [n1 ->]. apply np_zeros_replicate in Hl3 as [n3 ->].
    assert (Hok : ∀ w0 k0 obs st,
               episodes_ok (step self)
                 {| t_self := self; t_ac := ac; t_world := w0; t_events := [];
                    t_rng_key := k0; t_episodes := 0; t_ep_lens := replicate n1 0;
                    t_ep_rets := l2; t_dones := replicate n3 false;
                    t_env_obs := obs; t_env_states := st |}).
    { intros. unfold episodes_ok. cbn [t_self t_events t_episodes t_ep_lens t_dones].
      split; [done|]. split; [by apply Forall_nil|]. split.
      - apply Forall_replicate. lia.
      - split; [|lia]. left. by apply Forall_replicate. }
    destruct (jax_env self).
    - destruct (env_reset _) as [o s]. bind_inv E as nts Hnts.
      exists nts. eexists. split; [exact E|apply Hok].
    - destruct (gym_reset _) as [o w']. bind_inv E as nts Hnts.
      exists nts. eexists. split; [exact E|apply Hok]. }
  destruct Hstart as (nts & t0 & Hloop & Hok0).
  apply (train_loop_invariant (episodes_ok (step self))) in Hloop; [|clear|exact Hok0].
  - by destruct Hloop as (? & ? & _).
  - intros t1 t2 Hok _ Hiter. unfold train_iter in Hiter.
    bind_inv Hiter as a Ha. bind_inv Hiter as b Hb. bind_inv Hiter as c Hc.
    eapply learn_episodes; [exact Hiter|].
    eapply flush_interact_episodes; [exact Hb|exact Hc|].
    by eapply maybe_evaluate_episodes.
Qed.

(** ** The evaluation *)

Lemma split_succ k n : split k (S n) = child k 0 :: map (child k) (seq 1 n).
Proof. done. Qed.

Lemma NoDup_children k a n : NoDup (map (child k) (seq a n)).
Proof.
  apply NoDup_fmap_2_strong; [|apply NoDup_seq].
  intros i j _ _. apply child_inj.
Qed.

(** X9.  [evaluate] wants [num_eval_envs] to be at least one: with 0 or -1 it
    raises a [ValueError] (nothing to stack, nothing to unpack).  With
    [n >= 1] it splits its key in [n + 1], drops the first part and hands
    the other [n], all different from each other and from the key it was
    given, to one rollout with the actor; it reports under [test], at the
    step of the agent, the returns and lengths of the episodes whose [done]
    flag is set, as many of each as there are such flags, then logs and
    resets the logger. *)
Theorem evaluate_spec self w k ac :
  (∀ n, cfg self !! "num_eval_envs" = Some (VInt n) → -1 ≤ n < 1 →
        evaluate self w k ac = Raise ValueError) ∧
  (∀ ev w', evaluate self w k ac = Ok (ev, w') →
     ∃ v n es rets lens,
       cfg self !! "num_eval_envs" = Some v ∧ as_num v = Ok (NInt n) ∧ 1 ≤ n ∧
       cfg self !! "eval_steps" = Some es ∧
       let keys := map (child k) (seq 1 (Z.to_nat n)) in
       let '(ep_rets, ep_lens, ends, w2) := rollout w keys (actor ac) es in
       length keys = Z.to_nat n ∧ NoDup keys ∧ (k ∉ keys) ∧ (child k 0 ∉ keys) ∧
       w' = w2 ∧
       np_select ep_rets ends = Ok rets ∧ np_select ep_lens ends = Ok lens ∧
       Z.of_nat (length rets) = np_sum ends ∧ Z.of_nat (length lens) = np_sum ends ∧
       ev = [LoggerStoreEpisodes "test" rets lens; LoggerLog (step self); LoggerReset]).
Proof.
  split.
  - intros n Hn Hlt. unfold evaluate, getattr. rewrite Hn. cbn.
    destruct (Z.to_nat (n + 1)) as [|[|m]] eqn:Hm; [done|done|lia].
  - intros ev w' E. unfold evaluate in E.
    bind_inv E as v Hv. apply getattr_Ok in Hv. bind_inv E as n Hn.
    destruct n as [n|q]; [|discriminate E].
    destruct (Z.to_nat (n + 1)) as [|[|m]] eqn:Hm; [discriminate E|discriminate E|].
    assert (Hn1 : 1 ≤ n) by lia.
    assert (Hnm : Z.to_nat n = S m) by lia.
    rewrite split_succ in E. cbn [seq map] in E.
    bind_inv E as es Hes. apply getattr_Ok in Hes.
    exists v, n, es.
    rewrite Hnm. cbn [seq map]. cbv zeta.
    destruct (rollout _ _ _ _) as [[[rets lens] ends] w2].
    bind_inv E as rets' Hrets. bind_inv E as lens' Hlens.
    injection E as <- <-. exists rets', lens'.
    repeat (split; [done|]).
    split; [cbn; by rewrite length_map, length_seq|].
    split; [apply (NoDup_children k 1 (S m))|].
    split.
    { intros Hin. change (k ∈ map (child k) (seq 1 (S m))) in Hin.
      apply list_elem_of_fmap in Hin as (i & Hi & _). symmetry in Hi.
      by apply child_neq in Hi. }
    split.
    { intros Hin. change (child k 0 ∈ map (child k) (seq 1 (S m))) in Hin.
      apply list_elem_of_fmap in Hin as (i & Hi & Hseq).
      apply child_inj in Hi as <-. apply elem_of_seq in Hseq. lia. }
    split; [done|]. split; [done|]. split; [done|].
    split; [by apply np_select_length in Hrets as [? _]|].
    split; [by apply np_select_length in Hlens as [? _]|done].
Qed.

End AgentFacts.

(** ** Construction of the environment *)



(** ** The scenarios, run in the toy world *)

Import Toy Scenario.

(** The agent of the scenario is the one [SAC.__init__] builds from the
    scenario's dictionary, with [num_train_steps] and [max_episode_length]
    set afterwards. *)
Lemma scenario_agent_built :
  (self ← SAC_init (H := spaces) false 1 (CfgDict scenario_kwargs);
   Ok (set_cfg (set_cfg self "num_train_steps" (VInt 30))
         "max_episode_length" (VInt 1000))) = Ok agent.
Proof. vm_compute. reflexivity. Qed.

(** C1 as the spec states it fails: the run of the scenario completes with
    11 critic updates and 6 actor updates, not 10 and 5. *)
Lemma scenario_counts_not_10_and_5 :
  counts = Ok (11%nat, 6%nat) ∧ counts ≠ Ok (10%nat, 5%nat).
Proof.
  assert (E : counts = Ok (11%nat, 6%nat)) by (vm_compute; reflexivity).
  split; [exact E|]. rewrite E. discriminate.
Qed.

(** The toy world is a stateful world of one environment. *)
Lemma toy_single_env_world : single_env_world.
Proof.
  repeat split; intros; try reflexivity.
  cbn. unfold bump. cbn. apply length_map.
Defined.

Lemma scenario_update_counts_witness :
  SAC_init false 1 (CfgDict scenario_kwargs) = Ok built ∧
  single_env_world ∧
  (∃ t', train (set_cfg (set_cfg built "num_train_steps" (VInt 30))
                  "max_episode_length" (VInt 1000)) 0 [] ac0 = Ok t') ∧
  train (set_cfg (set_cfg built "num_train_steps" (VInt 30))
           "max_episode_length" (VInt 1000)) 0 [] ac0 = Ok final ∧
  step (t_self final) = 30 ∧
  critic_updates (t_events final) = 11%nat ∧
  actor_updates (t_events final) = 6%nat.
Proof.
  assert (Hinit : SAC_init false 1 (CfgDict scenario_kwargs) = Ok built)
    by (vm_compute; reflexivity).
  assert (Hrun : train (set_cfg (set_cfg built "num_train_steps" (VInt 30))
                          "max_episode_length" (VInt 1000)) 0 [] ac0 = Ok final)
    by (vm_compute; reflexivity).
  destruct (scenario_update_counts false 1 (VInt 1000) built 0 [] ac0 Hinit)
    as [Hcount Hcompletes].
  split; [exact Hinit|]. split; [exact toy_single_env_world|].
  split; [exact (Hcompletes eq_refl toy_single_env_world eq_refl)|].
  split; [exact Hrun|]. exact (Hcount final Hrun).
Defined.

(** C3, as the code has it.  For a configuration with [num_envs = 4] and
    [replay_buffer_capacity = 100] the agent's buffer has one ring of 100
    slots, not four of 25, and a timestep of four environments cannot be
    stored in it; a buffer built for four environments would keep the last
    25 timesteps of each. *)
Theorem sac_buffer_single_env :
  four_env_buffer = Ok (Some (VInt 4), 1%nat, 100%nat) ∧
  four_env_store = Raise ValueError ∧
  kept_of_fifty = Ok (replicate 4 (map Z.of_nat (seq 25 25))).
Proof. split; [|split]; vm_compute; reflexivity. Qed.

Lemma train_needs_undeclared_attributes_witness :
  dom full_kwargs = list_to_set SACConfig_fields ∧
  SAC_init false 1 (CfgDict full_kwargs) = Ok built_full ∧
  cfg built_full !! "num_train_steps" = None ∧
  cfg built_full !! "max_episode_length" = None ∧
  train built_full 0 [] ac0 = Raise (AttributeError "num_train_steps").
Proof.
  assert (Hdom : dom full_kwargs = list_to_set SACConfig_fields).
  { unfold full_kwargs. rewrite dom_list_to_map_L. reflexivity. }
  assert (Hinit : SAC_init false 1 (CfgDict full_kwargs) = Ok built_full)
    by (vm_compute; reflexivity).
  assert (Hne : full_kwargs !! "num_envs" = Some (VInt 1))
    by (vm_compute; reflexivity).
  split; [exact Hdom|]. split; [exact Hinit|].
  destruct (train_needs_undeclared_attributes full_kwargs Hdom) as [_ Hall].
  destruct (Hall false 1 built_full 0 [] ac0 Hinit) as (H1 & H2 & e & He & Hspec).
  split; [exact H1|]. split; [exact H2|].
  rewrite He. f_equal. apply (Hspec 1 Hne). lia.
Defined.

(** With [num_train_steps] set by hand the first iteration stops at the
    other undeclared attribute. *)
Lemma train_needs_max_episode_length :
  (self ← SAC_init (H := spaces) false 1 (CfgDict full_kwargs);
   train (set_cfg self "num_train_steps" (VInt 30)) 0 [] ac0)
  = Raise (AttributeError "max_episode_length").
Proof. vm_compute. reflexivity. Qed.

(** A functional environment never gets through the first iteration:
    [env_states] is read before it is assigned. *)
Lemma train_jax_env_unbound :
  train (set_jax agent) 0 [] ac0 = Raise (UnboundLocalError "env_states").
Proof. vm_compute. reflexivity. Qed.

Lemma evaluation_only_when_due_witness :
  eval_due (agent_at 5000) = Ok true ∧ eval_conditions (agent_at 5000).
Proof.
  assert (E : eval_due (agent_at 5000) = Ok true) by (vm_compute; reflexivity).
  split; [exact E|].
  exact (proj1 (evaluation_only_when_due (state_at 5000 0)) E).
Defined.

Lemma stored_mask_witness :
  ∃ ts,
    train_iter (state_at 6 6) = Ok after_step_6 ∧
    In (Store ts) (t_events after_step_6) ∧
    t_dones after_step_6 = [true] ∧ t_ep_lens after_step_6 = [7] ∧
    mask ts = [false].
Proof.
  assert (Hrun : train_iter (state_at 6 6) = Ok after_step_6)
    by (vm_compute; reflexivity).
  assert (Hl : cfg (t_self (state_at 6 6)) !! "max_episode_length" = Some (VInt 1000))
    by (vm_compute; reflexivity).
  assert (Hm : compute_mask (t_dones after_step_6) (t_ep_lens after_step_6) (VInt 1000)
               = Ok [false]) by (vm_compute; reflexivity).
  destruct (stored_mask _ _ Hrun)
    as (mel & pre & ts & post & Hmel & Hev & _ & _ & Hmask & _).
  rewrite Hl in Hmel. injection Hmel as <-.
  rewrite Hm in Hmask. injection Hmask as Hmask.
  exists ts. split; [exact Hrun|].
  split; [rewrite Hev; apply in_or_app; right; apply in_or_app; right; left; reflexivity|].
  split; [vm_compute; reflexivity|]. split; [vm_compute; reflexivity|].
  symmetry. exact Hmask.
Defined.

Lemma update_cycle_consistent_witness :
  interact (state_at 19 5) = Ok stepped_19 ∧
  learn stepped_19 = Ok learned_19 ∧
  t_ac learned_19 ≠ t_ac stepped_19.
Proof.
  assert (Hstep : interact (state_at 19 5) = Ok stepped_19) by (vm_compute; reflexivity).
  assert (Hrun : learn stepped_19 = Ok learned_19) by (vm_compute; reflexivity).
  split; [exact Hstep|]. split; [exact Hrun|].
  destruct (update_cycle_consistent _ _ Hrun)
    as [[Hac _]|(bs & batch & ua & ut & a' & c' & tc' & tp' & aux & d & b & _)];
    intros Heq; vm_compute in Heq; discriminate Heq.
Defined.

Lemma update_parameters_frame_witness :
  ∃ c' aux,
    update_parameters agent [] model0 model0 model0 model0 (batch_of []) false false
    = Ok (model0, c', model0, model0, aux) ∧
    c' = bump model0.
Proof.
  do 2 eexists.
  assert (Hrun : update_parameters agent [] model0 model0 model0 model0 (batch_of [])
                   false false = Ok (model0, ?[c'], model0, model0, ?[aux]))
    by (vm_compute; reflexivity).
  split; [exact Hrun|].
  destruct (update_parameters_frame _ _ _ _ _ _ _ _ _ _ _ _ _ _ Hrun)
    as ((d & b & Hc) & _).
  vm_compute. reflexivity.
Defined.

Lemma update_parameters_polyak_witness :
  ∃ a' c' tc' tp' aux,
    update_parameters (set_cfg agent "tau" (VInt 1)) [] model0 (bump model0) model0 model0
      (batch_of []) false true = Ok (a', c', tc', tp', aux) ∧
    Forall2 Qeq (params tc') (params (bump model0)).
Proof.
  do 5 eexists.
  assert (Hrun : update_parameters (set_cfg agent "tau" (VInt 1)) [] model0 (bump model0)
                   model0 model0 (batch_of []) false true
                 = Ok (?[a'], ?[c'], ?[tc'], ?[tp'], ?[aux]))
    by (vm_compute; reflexivity).
  split; [exact Hrun|].
  destruct (update_parameters_polyak _ _ _ _ _ _ _ _ _ _ _ _ _ Hrun)
    as (tau & t & Htau & Ht & _ & _ & H1 & _).
  apply H1. vm_compute in Htau. injection Htau as <-.
  vm_compute in Ht. injection Ht as <-. reflexivity.
Defined.



Import Examples.

(** ** More examples on the toy world *)

Lemma SACConfig_spec_witness :
  (∃ c, SACConfig scenario_kwargs = Ok c ∧
        dom c = list_to_set SACConfig_fields ∧
        c !! "actor_update_freq" = Some (VInt 2) ∧
        c !! "tau" = Some (VFloat (5 # 1000))) ∧
  SACConfig unknown_kwargs = Raise TypeError.
Proof.
  destruct (SACConfig_spec scenario_kwargs) as [Hok _].
  destruct (SACConfig_spec unknown_kwargs) as [_ Hbad].
  assert (Hsub : dom scenario_kwargs ⊆ list_to_set SACConfig_fields).
  { apply (bool_decide_unpack _). vm_compute. exact I. }
  assert (Hreq : list_to_set SACConfig_required ⊆ dom scenario_kwargs).
  { apply (bool_decide_unpack _). vm_compute. exact I. }
  assert (Hno : ¬ (dom unknown_kwargs ⊆ list_to_set SACConfig_fields ∧
                   list_to_set SACConfig_required ⊆ dom unknown_kwargs)).
  { apply (bool_decide_unpack _). vm_compute. exact I. }
  split; [|exact (Hbad Hno)].
  destruct (Hok Hsub Hreq) as (c & Hc & Hdom & Hgiven & Hdef).
  exists c. split; [exact Hc|]. split; [exact Hdom|]. split.
  - apply Hgiven. vm_compute. reflexivity.
  - rewrite Hdef; vm_compute; reflexivity.
Defined.

Lemma SAC_init_spec_witness :
  SAC_init false 1 (CfgDict scenario_kwargs) = Ok built ∧
  step built = 0 ∧ action_dim built = 1 ∧
  cfg built !! "target_entropy" ≠ Some VNone ∧
  SAC_init (H := spaces) false 1 (CfgObj ∅) = Raise (AttributeError "replay_buffer_capacity").
Proof.
  assert (Hinit : SAC_init false 1 (CfgDict scenario_kwargs) = Ok built)
    by (vm_compute; reflexivity).
  destruct (SAC_init_spec (H := spaces) false 1) as [Hok Hbad].
  destruct (Hok (CfgDict scenario_kwargs) built Hinit)
    as (Hstep & _ & Hdim & cfg0 & te & _ & _ & _ & Hnone & _).
  split; [exact Hinit|]. split; [exact Hstep|]. split; [exact Hdim|].
  split; [exact Hnone|]. apply Hbad. reflexivity.
Defined.

Lemma train_functional_env_never_steps_witness :
  jax_env finished = true ∧
  train finished 0 [] ac0 = Ok finished_run ∧
  t_events finished_run = [] ∧ t_self finished_run = finished ∧
  jax_env (set_jax agent) = true ∧
  train (set_jax agent) 0 [] ac0 = Raise (UnboundLocalError "env_states").
Proof.
  assert (Hrun : train finished 0 [] ac0 = Ok finished_run) by (vm_compute; reflexivity).
  assert (Hne : cfg (set_jax agent) !! "num_envs" = Some (VInt 1))
    by (vm_compute; reflexivity).
  assert (Hnts : cfg (set_jax agent) !! "num_train_steps" = Some (VInt 30))
    by (vm_compute; reflexivity).
  assert (Hdue : eval_due (set_jax agent) = Ok false) by (vm_compute; reflexivity).
  destruct (train_functional_env_never_steps (H0 := collaborators) finished 0 [] ac0 eq_refl)
    as [Hquiet _].
  destruct (train_functional_env_never_steps (H0 := collaborators) (set_jax agent)
              0 [] ac0 eq_refl) as [_ Hraise].
  destruct (Hquiet finished_run Hrun) as [Hev Hself].
  split; [reflexivity|]. split; [exact Hrun|]. split; [exact Hev|].
  split; [exact Hself|]. split; [reflexivity|].
  apply (Hraise 1 30 Hne); [lia|exact Hnts|reflexivity|exact Hdue].
Defined.

Lemma zero_frequencies_witness :
  train_iter no_freq_state = Raise ZeroDivisionError ∧
  learn no_freq_state = Raise ZeroDivisionError ∧
  log_update (t_self no_freq_state) (mkAux tt tt tt) true = Ok [].
Proof.
  destruct (zero_frequencies (H0 := collaborators) no_freq_state) as (Hev & Hact & Hlog).
  assert (Hef : cfg (t_self no_freq_state) !! "eval_freq" = Some (VInt 0))
    by (vm_compute; reflexivity).
  assert (Hnss : cfg (t_self no_freq_state) !! "num_seed_steps" = Some (VInt 20))
    by (vm_compute; reflexivity).
  assert (Hauf : cfg (t_self no_freq_state) !! "actor_update_freq" = Some (VInt 0))
    by (vm_compute; reflexivity).
  assert (Hlf : cfg (t_self no_freq_state) !! "log_freq" = Some (VInt 0))
    by (vm_compute; reflexivity).
  split; [exact (Hev Hef)|]. split.
  - apply (Hact (VInt 20) Hnss); [reflexivity|exact Hauf].
  - apply (Hlog 0 _ _ Hlf). lia.
Defined.

Lemma run_counts_witness :
  train agent 0 [] ac0 = Ok final ∧
  step (t_self final) = 30 ∧
  env_steps (t_events final) = 30%nat ∧
  stored (t_events final) = 30 ∧
  seeded_steps (t_events final) = 20%nat ∧
  critic_updates (t_events final) = 11%nat.
Proof.
  assert (Hrun : train agent 0 [] ac0 = Ok final) by (vm_compute; reflexivity).
  assert (HN : cfg agent !! "num_train_steps" = Some (VInt 30)) by (vm_compute; reflexivity).
  assert (Hnss : cfg agent !! "num_seed_steps" = Some (VInt 20)) by (vm_compute; reflexivity).
  assert (Hauf : cfg agent !! "actor_update_freq" = Some (VInt 2))
    by (vm_compute; reflexivity).
  assert (Htuf : cfg agent !! "target_update_freq" = Some (VInt 1))
    by (vm_compute; reflexivity).
  split; [exact Hrun|].
  exact (run_counts (H0 := collaborators) 30 20 2 1 agent 0 [] ac0 final HN Hnss Hauf Htuf Hrun).
Defined.

Lemma stored_transitions_witness :
  train agent 0 [] ac0 = Ok final ∧
  chained [0] (stored_steps (t_events final)) (t_env_obs final) ∧
  store_seq (replay_buffer agent) (stored_steps (t_events final))
  = Ok (replay_buffer (t_self final)) ∧
  Z.of_nat (length (stored_steps (t_events final))) = step (t_self final) - 0.
Proof.
  assert (Hrun : train agent 0 [] ac0 = Ok final) by (vm_compute; reflexivity).
  split; [exact Hrun|].
  exact (stored_transitions (H0 := collaborators) agent 0 [] ac0 final Hrun).
Defined.

Lemma keys_never_reused_witness :
  train agent 0 [] ac0 = Ok final ∧
  incomparable (keys_of (t_events final)) ∧
  NoDup (keys_of (t_events final)) ∧
  length (keys_of (t_events final)) = 41%nat.
Proof.
  assert (Hrun : train agent 0 [] ac0 = Ok final) by (vm_compute; reflexivity).
  destruct (keys_never_reused (H0 := collaborators) agent 0 [] ac0 final Hrun)
    as (Hinc & Hnd & _).
  split; [exact Hrun|]. split; [exact Hinc|]. split; [exact Hnd|].
  vm_compute. reflexivity.
Defined.

Lemma train_episodes_reported_witness :
  train agent 0 [] ac0 = Ok final ∧
  t_episodes final = 4 ∧
  train_episode_lens (t_events final) = [7; 7; 7; 7] ∧
  Forall (λ l, 1 ≤ l ≤ step (t_self final) - step agent)
    (train_episode_lens (t_events final)).
Proof.
  assert (Hrun : train agent 0 [] ac0 = Ok final) by (vm_compute; reflexivity).
  assert (Hlens : train_episode_lens (t_events final) = [7; 7; 7; 7])
    by (vm_compute; reflexivity).
  destruct (train_episodes_reported (H0 := collaborators) agent 0 [] ac0 final Hrun)
    as [Hep Hall].
  split; [exact Hrun|]. split; [|split; [exact Hlens|exact Hall]].
  rewrite Hep, Hlens. reflexivity.
Defined.

Lemma evaluate_spec_witness :
  evaluate agent 0 [] ac0 = Ok evaluated ∧
  fst evaluated = [LoggerStoreEpisodes "test" [5] [3]; LoggerLog 0; LoggerReset] ∧
  evaluate (set_cfg agent "num_eval_envs" (VInt 0)) 0 [] ac0 = Raise ValueError.
Proof.
  assert (Hrun : evaluate agent 0 [] ac0 = Ok evaluated) by (vm_compute; reflexivity).
  destruct (evaluate_spec (H0 := collaborators) agent 0 [] ac0) as (_ & Hok).
  destruct (evaluate_spec (H0 := collaborators)
              (set_cfg agent "num_eval_envs" (VInt 0)) 0 [] ac0) as (Hlow & _).
  split; [exact Hrun|]. split.
  - destruct (Hok (fst evaluated) (snd evaluated) Hrun)
      as (v & n & es & rets & lens & _ & _ & _ & _ & Hrest).
    cbv zeta in Hrest. cbn [rollout collaborators] in Hrest.
    destruct Hrest as (_ & _ & _ & _ & _ & Hrets & Hlens & _ & _ & Hev).
    injection Hrets as <-. injection Hlens as <-. exact Hev.
  - apply (Hlow 0); [reflexivity|lia].
Defined.


